(** * Connect Four rules engine (four.cxx): model and verification

    The development embeds the game-state model of [four.cxx]
    ([GameState], [init_state], [check_line], [is_terminal],
    [trace_row_coordinate], [make_turn]) and proves the properties of
    initialization, placement, history and win detection.

    Conventions of the embedding.
    - [size_t] values are integers of [Z] in [0, 2^64); [int] values are
      integers in [-2^31, 2^31).  The conversions between the two are the
      modular ones ([to_size_t], [to_int]); mixed arithmetic is done in
      [size_t], as the usual arithmetic conversions prescribe.
    - Undefined behaviour of the C++ program (an out-of-range
      [vector::operator[]], an overflow of a signed addition) is the
      outcome [UB] of the [result] monad; every function that indexes the
      grid returns a [result].
    - An exception that leaves the function is the outcome [Throw]: the
      [std::length_error] of the constructor of a row asked for more
      than [max_size] cells.  An allocation is otherwise taken to
      succeed.
    - [vector] is [list], indexed with the lookup [!!] and updated with
      the insert [<[ _ := _ ]>] of std++.
    - A function that mutates the state returns the state after the call.

    Contents.
    - The model of the program, then the vocabulary of the statements.
    - Lemmas on machine integers, cells, the landing row, the outcomes of
      [make_turn], the line scanner and the four scans of [is_terminal].
    - The properties of the specification, C1 to C10.  The vertical and
      horizontal scans find every run through the last move
      ([is_terminal_vertical], [is_terminal_horizontal]); the diagonal
      scans do so only when the clamps of row and column agree
      ([is_terminal_diagonal1], [is_terminal_diagonal2],
      [diagonal_win_missed]).  Coordinates are [int]: the properties of
      [is_terminal] need [grid_width <= 2^31 - 3] ([int_columns]), and
      [init_state] builds at most [INT_MAX] rows, of at most [max_size]
      cells. *)

From Stdlib Require Import ZArith Lia Bool Ascii.
From stdpp Require Import base numbers list strings pretty.

Local Open Scope Z_scope.

(** ** Machine integers *)

Module MachineInt.

Definition INT_MIN : Z := -2147483648.
Definition INT_MAX : Z := 2147483647.
Definition SIZE_MAX : Z := 18446744073709551615.

(** Conversion of an integer to [size_t] (modulo 2^64). *)
Definition to_size_t (z : Z) : Z := z mod 18446744073709551616.

(** Conversion of an integer to [int] (modulo 2^32, two's complement). *)
Definition to_int (z : Z) : Z := (z + 2147483648) mod 4294967296 - 2147483648.

Definition is_size_t (z : Z) : Prop := 0 <= z <= SIZE_MAX.
Definition is_int (z : Z) : Prop := INT_MIN <= z <= INT_MAX.

End MachineInt.
Export MachineInt.

(** ** Outcomes: a value, undefined behaviour, or an exception *)

Inductive result (A : Type) : Type :=
| Ok (a : A)
| UB
| Throw.
Arguments Ok {A} a.
Arguments UB {A}.
Arguments Throw {A}.

Definition bind {A B : Type} (m : result A) (k : A -> result B) : result B :=
  match m with
  | Ok a => k a
  | UB => UB
  | Throw => Throw
  end.

Notation "'do' x <- m ; k" := (bind m (fun x => k))
  (at level 10, x name, m at level 100, k at level 200).

(** Signed addition on [int]: overflow is undefined. *)
Definition int_add (a b : Z) : result Z :=
  if (INT_MIN <=? a + b) && (a + b <=? INT_MAX) then Ok (a + b) else UB.

(** ** The data model *)

Definition ColorType := Z.
Definition IdType := Z.
Definition ErrMsgType := string.

Definition EMPTY_COLOR : ColorType := 0.
Definition line_len : Z := 4.
Definition line_offset : Z := line_len - 1.
Definition line_steps : Z := line_len * 2 - 1.

Record GameState : Type := mkGameState {
  grid : list (list ColorType);
  grid_width : Z;
  grid_height : Z;
  history : list (Z * Z * IdType)
}.

(** [state.grid[row][col]] read; both indices are converted to [size_t],
    and an index past the end of the vector is undefined. *)
Definition get_cell (g : list (list ColorType)) (row col : Z) : result ColorType :=
  match g !! Z.to_nat (to_size_t row) with
  | Some r =>
      match r !! Z.to_nat (to_size_t col) with
      | Some v => Ok v
      | None => UB
      end
  | None => UB
  end.

(** [state.grid[row][col] = v] write. *)
Definition set_cell (g : list (list ColorType)) (row col : Z) (v : ColorType)
  : result (list (list ColorType)) :=
  match g !! Z.to_nat (to_size_t row) with
  | Some r =>
      match r !! Z.to_nat (to_size_t col) with
      | Some _ =>
          Ok (<[Z.to_nat (to_size_t row) := <[Z.to_nat (to_size_t col) := v]> r]> g)
      | None => UB
      end
  | None => UB
  end.

(** ** [GameState::init_state] *)

(** [vector<ColorType>::max_size()], the largest number of elements that
    the constructor of a row accepts: [PTRDIFF_MAX / sizeof (ColorType)],
    with the 8 bytes of a 64-bit [size_t] (libstdc++). *)
Definition max_size : Z := 1152921504606846975.

(** [vector<ColorType>(width, EMPTY_COLOR)], the row that [emplace_back]
    constructs in place: the constructor throws [std::length_error] when
    [width] exceeds [max_size]. *)
Definition new_row (width : Z) : result (list ColorType) :=
  if width >? max_size then Throw
  else Ok (replicate (Z.to_nat width) EMPTY_COLOR).

(** The loop [for (auto i = 0; i < height; ++i) grid.emplace_back(width, EMPTY_COLOR)].
    The counter [i] is an [int], incremented after each row; [n] is the
    number of iterations left, [height - i]. *)
Fixpoint init_rows (n : nat) (i : Z) (width : Z) (g : list (list ColorType))
  : result (list (list ColorType)) :=
  match n with
  | O => Ok g
  | S n' =>
      do row <- new_row width;
      let g' := g ++ [row] in
      do i' <- int_add i 1;
      init_rows n' i' width g'
  end.

Definition init_state (width height : Z) : result (option GameState) :=
  if (width =? 0) || (height =? 0) then Ok None
  else
    do g <- init_rows (Z.to_nat height) 0 width [];
    Ok (Some {| grid := g; grid_width := width; grid_height := height; history := [] |}).

(** ** [check_line] *)

(** The body of the [for] loop of [check_line]; [n] is the number of
    steps left, [steps - step_i] (the counter [step_i] stays below the
    [line_steps] = 7 steps that [is_terminal] asks for).  The cell under
    the cursor is read first; the bounds are tested after the cursor has
    moved. *)
Fixpoint check_line_loop (state : GameState) (n : nat)
    (token_counter row_id col_id inc_row inc_col : Z) (player_id : IdType)
  : result bool :=
  match n with
  | O => Ok false
  | S n' =>
      do cell <- get_cell (grid state) row_id col_id;
      let token_counter := if cell =? player_id then token_counter + 1 else 0 in
      if token_counter =? line_len then Ok true
      else
        do col_id' <- int_add col_id inc_col;
        do row_id' <- int_add row_id inc_row;
        if (to_size_t row_id' >? to_size_t (grid_height state - 1)) || (row_id' <? 0)
        then Ok false
        else if (to_size_t col_id' >? to_size_t (grid_width state - 1)) || (col_id' <? 0)
        then Ok false
        else check_line_loop state n' token_counter row_id' col_id' inc_row inc_col player_id
  end.

Definition check_line (state : GameState)
    (start_row_i start_col_i inc_row inc_col : Z) (steps : Z) (player_id : IdType)
  : result bool :=
  check_line_loop state (Z.to_nat steps) 0 start_row_i start_col_i inc_row inc_col player_id.

(** ** [GameState::is_terminal] *)

(** [int(token - line_offset)]: the subtraction is done in [size_t]. *)
Definition back_off (token : Z) : Z :=
  to_int (to_size_t (to_size_t token - line_offset)).

(** [int(token + line_offset)]: the addition is done in [size_t]. *)
Definition forward_off (token : Z) : Z :=
  to_int (to_size_t (to_size_t token + line_offset)).

Definition is_terminal (s : GameState) : result (option IdType) :=
  match last (history s) with
  | None => Ok None
  | Some (token_row, token_col, player_id) =>
      (* Check vertical. *)
      let v_start_row := Z.max (back_off token_row) 0 in
      let v_start_col := token_col in
      do v <- check_line s v_start_row v_start_col 1 0 line_steps player_id;
      if v then Ok (Some player_id) else
      (* Check horizontal. *)
      let h_start_row := token_row in
      let h_start_col := Z.max (back_off token_col) 0 in
      do h <- check_line s h_start_row h_start_col 0 1 line_steps player_id;
      if h then Ok (Some player_id) else
      (* Check diagonal 1. *)
      let d1_start_row := Z.max (back_off token_row) 0 in
      let d1_start_col := Z.max (back_off token_col) 0 in
      do d1 <- check_line s d1_start_row d1_start_col 1 1 line_steps player_id;
      if d1 then Ok (Some player_id) else
      (* Check diagonal 2. *)
      let d2_start_row := Z.max (back_off token_row) 0 in
      let d2_start_col :=
        Z.min (forward_off token_col) (to_int (to_size_t (grid_width s - 1))) in
      do d2 <- check_line s d2_start_row d2_start_col 1 (-1) line_steps player_id;
      if d2 then Ok (Some player_id) else Ok None
  end.

(** ** [trace_row_coordinate] *)

(** The loop [for (int row_i = ...; row_i >= 0; --row_i)]; [n] is the
    number of iterations left, [row_i + 1]. *)
Fixpoint trace_loop (g : list (list ColorType)) (col_i : Z) (n : nat) (row_i : Z)
  : result (option Z) :=
  match n with
  | O => Ok None
  | S n' =>
      do cell <- get_cell g row_i col_i;
      if cell =? EMPTY_COLOR then Ok (Some (to_size_t row_i))
      else trace_loop g col_i n' (row_i - 1)
  end.

Definition trace_row_coordinate (state : GameState) (col_i : Z) : result (option Z) :=
  if (col_i <? 0) || (col_i >=? grid_width state) then Ok None
  else
    let row_i := to_int (to_size_t (grid_height state - 1)) in
    trace_loop (grid state) col_i (Z.to_nat (row_i + 1)) row_i.

(** ** [make_turn] *)

Definition err_range : ErrMsgType := "column index is outside of the grid range".
Definition err_full : ErrMsgType :=
  "token cannot be placed in a given column as it's full or does not exist".

(** The result is the optional error message together with the state
    after the call (the C++ function mutates its argument). *)
Definition make_turn (state : GameState) (col_i : Z) (player_id : IdType)
  : result (option ErrMsgType * GameState) :=
  if (col_i <? 0) || (col_i >=? grid_width state) then Ok (Some err_range, state)
  else
    do row_i_opt <- trace_row_coordinate state col_i;
    match row_i_opt with
    | None => Ok (Some err_full, state)
    | Some row_i =>
        do g <- set_cell (grid state) row_i col_i player_id;
        Ok (None,
            {| grid := g;
               grid_width := grid_width state;
               grid_height := grid_height state;
               history := history state ++ [(to_int row_i, to_int col_i, player_id)] |})
    end.

(** ** [debug_print_state] *)

(** The text written to [cout] is a [string]; [endl] writes a newline. *)
Definition endl : string := String "010"%char EmptyString.

(** The glyph written for a cell; nothing is written for a colour other
    than 0, 1 and 2. *)
Definition glyph (cell_color : ColorType) : string :=
  if cell_color =? EMPTY_COLOR then "⬜️"
  else if cell_color =? 1 then "🟢"
  else if cell_color =? 2 then "🔴"
  else "".

(** The loop [for (auto col_i = 0; col_i < state.grid_width; ++col_i)];
    [col_i] is an [int], [n] is the number of iterations left. *)
Fixpoint print_cells (state : GameState) (n : nat) (row_i col_i : Z) : result string :=
  match n with
  | O => Ok ""
  | S n' =>
      do cell_color <- get_cell (grid state) row_i col_i;
      do col_i' <- int_add col_i 1;
      do rest <- print_cells state n' row_i col_i';
      Ok (glyph cell_color +:+ " " +:+ rest)
  end.

(** The loop [for (auto row_i = 0; row_i < state.grid_height; ++row_i)];
    [row_i] is an [int], [n] is the number of iterations left. *)
Fixpoint print_rows (state : GameState) (n : nat) (row_i : Z) : result string :=
  match n with
  | O => Ok ""
  | S n' =>
      do line <- print_cells state (Z.to_nat (grid_width state)) row_i 0;
      do row_i' <- int_add row_i 1;
      do rest <- print_rows state n' row_i';
      Ok (line +:+ endl +:+ rest)
  end.

(** The result is the text written to [cout]. *)
Definition debug_print_state (state : GameState) : result string :=
  do term_result <- is_terminal state;
  do board <- print_rows state (Z.to_nat (grid_height state)) 0;
  Ok ("size:     " +:+ pretty (grid_width state) +:+ " x "
        +:+ pretty (grid_height state) +:+ endl
      +:+ "turn:     " +:+ pretty (Z.of_nat (length (history state))) +:+ endl
      +:+ match term_result with
          | Some winner =>
              "terminal: " +:+ "YES (player " +:+ pretty winner +:+ " is a winner)" +:+ endl
          | None => "terminal: NO" +:+ endl
          end
      +:+ endl +:+ board +:+ endl).

(** ** The driver: sequences of turns *)

(** Applies the turns of [moves] (column, player) in order; as in [main],
    the first error stops the game. *)
Fixpoint play (state : GameState) (moves : list (Z * IdType))
  : result (option ErrMsgType * GameState) :=
  match moves with
  | [] => Ok (None, state)
  | (col_i, player_id) :: rest =>
      do r <- make_turn state col_i player_id;
      match r with
      | (Some e, s') => Ok (Some e, s')
      | (None, s') => play s' rest
      end
  end.

(** Any sequence of calls of [make_turn] on the same state object; a
    failed call leaves the state as it is and the sequence goes on. *)
Fixpoint make_turns (state : GameState) (moves : list (Z * IdType))
  : result GameState :=
  match moves with
  | [] => Ok state
  | (col_i, player_id) :: rest =>
      do r <- make_turn state col_i player_id;
      make_turns (snd r) rest
  end.

(** The states of a game: the state returned by [init_state], and the
    states after the calls of [make_turn]. *)
Inductive reachable : GameState -> Prop :=
| reachable_init width height s :
    is_size_t width -> is_size_t height ->
    init_state width height = Ok (Some s) -> reachable s
| reachable_turn s col p r s' :
    reachable s -> make_turn s col p = Ok (r, s') -> reachable s'.

(** The 10 x 10 state of [main] after the given turns. *)
Definition after_turns (moves : list (Z * IdType)) : GameState :=
  match init_state 10 10 with
  | Ok (Some s0) =>
      match play s0 moves with
      | Ok (_, s) => s
      | UB | Throw => s0
      end
  | _ => mkGameState [] 0 0 []
  end.

(** ** [main] *)

(** What [main] leaves behind: its return value, the text written to
    [cout], and the input it has not read. *)
Record Exit : Type := mkExit {
  exit_code : Z;
  output : string;
  unread : list Z
}.

Definition players : list Z := [1; 2].

(** The [while (true)] loop of [main].  The input [cin] is the list of
    the values that the successive extractions [cin >> token_col] store;
    when it is exhausted the extraction stores nothing and the
    uninitialized [token_col] is read, which is undefined.  The loop
    reads one value for each iteration. *)
Fixpoint main_loop (state : GameState) (turn_counter : Z) (cin : list Z)
    (out : string) : result Exit :=
  match cin with
  | [] => UB
  | token_col :: cin' =>
      match players !! Z.to_nat (to_size_t (Z.rem turn_counter 2)) with
      | None => UB
      | Some player_id =>
          do turn_counter' <- int_add turn_counter 1;
          do r <- make_turn state (to_size_t token_col) (to_size_t player_id);
          match r with
          | (Some err, _) =>
              Ok {| exit_code := 0;
                    output := out +:+ "error: " +:+ err +:+ endl;
                    unread := cin' |}
          | (None, state') =>
              do text <- debug_print_state state';
              do term <- is_terminal state';
              match term with
              | Some _ =>
                  Ok {| exit_code := 0;
                        output := out +:+ text +:+ "gg" +:+ endl;
                        unread := cin' |}
              | None => main_loop state' turn_counter' cin' (out +:+ text)
              end
          end
      end
  end.

Definition main (cin : list Z) : result Exit :=
  do state_result <- init_state 10 10;
  match state_result with
  | Some state => main_loop state 0 cin ""
  | None =>
      Ok {| exit_code := 1;
            output := "failed to initialize game state";
            unread := cin |}
  end.

(** * Specification vocabulary *)

(** ** States and cells *)

(** The representation invariant of a state: positive dimensions, a
    height that an [int] row index can reach, and a grid of
    [grid_height] rows of [grid_width] cells.  Every reachable state
    satisfies it ([reachable_wf]). *)
Definition wf (s : GameState) : Prop :=
  0 < grid_width s <= SIZE_MAX /\
  0 < grid_height s <= INT_MAX /\
  length (grid s) = Z.to_nat (grid_height s) /\
  Forall (fun r => length r = Z.to_nat (grid_width s)) (grid s).

(** [(row, col)] is a cell of the grid. *)
Definition in_grid (s : GameState) (row col : Z) : Prop :=
  0 <= row < grid_height s /\ 0 <= col < grid_width s.

(** The grid of [height] rows of [width] empty cells. *)
Definition empty_grid (width height : Z) : list (list ColorType) :=
  replicate (Z.to_nat height) (replicate (Z.to_nat width) EMPTY_COLOR).

(** The state after a token of [player_id] landed on [(row, col)]. *)
Definition placed (s : GameState) (g : list (list ColorType))
    (row col : Z) (player_id : IdType) : GameState :=
  {| grid := g;
     grid_width := grid_width s;
     grid_height := grid_height s;
     history := history s ++ [(to_int row, to_int col, player_id)] |}.

(** The state after a move of the empty marker on [(row, col)]: the grid
    is the same, the history has one more entry. *)
Definition marked (s : GameState) (row col : Z) : GameState :=
  {| grid := grid s;
     grid_width := grid_width s;
     grid_height := grid_height s;
     history := history s ++ [(row, to_int col, EMPTY_COLOR)] |}.

(** ** Columns *)

(** Column [col] of the state has no empty cell. *)
Definition column_full (s : GameState) (col : Z) : Prop :=
  forall row, 0 <= row < grid_height s ->
    exists v, get_cell (grid s) row col = Ok v /\ v <> EMPTY_COLOR.

(** [row] is the lowest empty cell of column [col]: it is empty and every
    cell below it (larger row index) is occupied. *)
Definition lowest_empty (s : GameState) (col row : Z) : Prop :=
  0 <= row < grid_height s /\
  get_cell (grid s) row col = Ok EMPTY_COLOR /\
  forall row', row < row' < grid_height s ->
    exists v, get_cell (grid s) row' col = Ok v /\ v <> EMPTY_COLOR.

(** ** Lines *)

(** The bound test [x > dim - 1 || x < 0] of [check_line], where the
    first comparison is done in [size_t]. *)
Definition leaves (dim x : Z) : bool :=
  (to_size_t x >? to_size_t (dim - 1)) || (x <? 0).

(** The increments of the directions scanned by [is_terminal]. *)
Definition unit_step (d : Z) : Prop := -1 <= d <= 1.

(** The columns of the state are [int] columns when [line_offset] can be
    added to the index of the last column without leaving [int]:
    [grid_width <= 2^31 - 3]. *)
Definition int_columns (s : GameState) : Prop :=
  grid_width s - 1 + line_offset <= INT_MAX.

(** [k] consecutive cells of the grid, from [(row, col)] in direction
    [(dr, dc)], all hold [p]. *)
Fixpoint run_from (s : GameState) (row col dr dc : Z) (p : IdType) (k : nat) : Prop :=
  match k with
  | O => True
  | S k' =>
      in_grid s row col /\ get_cell (grid s) row col = Ok p /\
      run_from s (row + dr) (col + dc) dr dc p k'
  end.

(** The [m] cells from [(row, col)] in direction [(dr, dc)] are cells of
    the grid. *)
Fixpoint path_in (s : GameState) (row col dr dc : Z) (m : nat) : Prop :=
  match m with
  | O => True
  | S m' => in_grid s row col /\ path_in s (row + dr) (col + dc) dr dc m'
  end.

(** Four tokens of [p] in a line: the cells [(row + j*dr, col + j*dc)],
    [j = 0..3], are cells of the grid and hold [p]. *)
Definition four_in_line (s : GameState) (row col dr dc : Z) (p : IdType) : Prop :=
  forall j, 0 <= j < line_len ->
    in_grid s (row + j * dr) (col + j * dc) /\
    get_cell (grid s) (row + j * dr) (col + j * dc) = Ok p.

(** ** Counting empty cells *)

(** Number of empty cells of a row, of a grid. *)
Fixpoint count_empty_row (r : list ColorType) : nat :=
  match r with
  | [] => 0
  | v :: r' => (if v =? EMPTY_COLOR then 1 else 0) + count_empty_row r'
  end.

Fixpoint count_empty (g : list (list ColorType)) : nat :=
  match g with
  | [] => 0
  | r :: g' => count_empty_row r + count_empty g'
  end.

(** The invariant behind the bound on the history: every entry of the
    history stands for a cell that is no longer empty. *)
Definition history_inv (s : GameState) : Prop :=
  wf s /\
  Z.of_nat (length (history s)) + Z.of_nat (count_empty (grid s))
  = grid_width s * grid_height s.

(** ** Particular states *)

(** A small state: 3 columns, 2 rows, column 0 full. *)
Definition demo_state : GameState :=
  {| grid := [[1; 0; 0]; [2; 0; 0]];
     grid_width := 3;
     grid_height := 2;
     history := [(1, 0, 2); (0, 0, 1)] |}.

(** A grid of one row of [2^31 + 1] cells, as [init_state] builds it. *)
Definition wide_state : GameState :=
  {| grid := empty_grid 2147483649 1;
     grid_width := 2147483649;
     grid_height := 1;
     history := [] |}.

(** A grid of one row of [2^31 - 2] cells after a move of player 1 on its
    last column. *)
Definition edge_state : GameState :=
  {| grid := [replicate (Z.to_nat 2147483645) EMPTY_COLOR ++ [1]];
     grid_width := 2147483646;
     grid_height := 1;
     history := [(0, 2147483645, 1)] |}.

(** The 10 x 10 grid after two, three and four tokens of player 1 on
    the first columns of the bottom row. *)
Definition bottom_two : GameState := Eval vm_compute in after_turns [(0, 1); (1, 1)].
Definition bottom_three : GameState := Eval vm_compute in after_turns [(0, 1); (1, 1); (2, 1)].
Definition bottom_four : GameState :=
  Eval vm_compute in after_turns [(0, 1); (1, 1); (2, 1); (3, 1)].

(** The turns of a game of [main] on the 10 x 10 grid, players 1 and 2
    alternating: player 1 ends with tokens on (6,0), (7,1), (8,2), (9,3). *)
Definition diagonal_game : list (Z * IdType) :=
  [(3, 1); (0, 2); (1, 1); (2, 2); (0, 1); (1, 2); (2, 1); (3, 2); (1, 1); (0, 2); (0, 1)].

Definition diagonal_state : GameState := Eval vm_compute in after_turns diagonal_game.

(** ** Vocabulary of the further properties *)

(** The four directions scanned by [is_terminal]. *)
Definition scanned (dr dc : Z) : Prop :=
  (dr = 1 /\ dc = 0) \/ (dr = 0 /\ dc = 1) \/ (dr = 1 /\ dc = 1) \/ (dr = 1 /\ dc = -1).

(** No token floats: every cell below an occupied cell is occupied. *)
Definition stacked (s : GameState) : Prop :=
  forall row col v,
    in_grid s row col -> get_cell (grid s) row col = Ok v -> v <> EMPTY_COLOR ->
    forall row', row < row' < grid_height s ->
      exists v', get_cell (grid s) row' col = Ok v' /\ v' <> EMPTY_COLOR.

(** Every entry of the history names a cell of the grid, and the cell of
    an entry of a player other than the empty marker holds that player. *)
Definition history_on_grid (s : GameState) : Prop :=
  forall row col p, (row, col, p) ∈ history s ->
    in_grid s row col /\ (p <> EMPTY_COLOR -> get_cell (grid s) row col = Ok p).

(** Column [col] holds [n] empty cells, on top of occupied cells. *)
Definition column_level (s : GameState) (col n : Z) : Prop :=
  0 <= n <= grid_height s /\
  (forall row, 0 <= row < n -> get_cell (grid s) row col = Ok EMPTY_COLOR) /\
  (forall row, n <= row < grid_height s ->
     exists v, get_cell (grid s) row col = Ok v /\ v <> EMPTY_COLOR).

(** The text of a row and of a grid, as [debug_print_state] draws them. *)
Fixpoint render_row (r : list ColorType) : string :=
  match r with
  | [] => ""
  | cell_color :: r' => glyph cell_color +:+ " " +:+ render_row r'
  end.

Fixpoint render_grid (g : list (list ColorType)) : string :=
  match g with
  | [] => ""
  | r :: g' => render_row r +:+ endl +:+ render_grid g'
  end.

(** The colours that have a glyph. *)
Definition drawn (v : ColorType) : Prop := v = 0 \/ v = 1 \/ v = 2.

(** The 10 x 10 grid after four tokens of player 1 in column 5, and
    after a diagonal of player 1 from (6,3) down to (9,6), completed on
    (6,3). *)
Definition column_three : GameState :=
  Eval vm_compute in after_turns [(5, 1); (0, 2); (5, 1); (0, 2); (5, 1); (0, 2)].

Definition column_four : GameState :=
  Eval vm_compute in after_turns [(5, 1); (0, 2); (5, 1); (0, 2); (5, 1); (0, 2); (5, 1)].

Definition slope_three : GameState :=
  Eval vm_compute in
    after_turns [(6, 1); (5, 2); (5, 1); (4, 2); (4, 2); (4, 1); (3, 2); (3, 2); (3, 2)].

Definition slope_four : GameState :=
  Eval vm_compute in
    after_turns [(6, 1); (5, 2); (5, 1); (4, 2); (4, 2); (4, 1);
                 (3, 2); (3, 2); (3, 2); (3, 1)].

(** The text that [debug_print_state] writes for a state whose
    [is_terminal] verdict is [verdict]: three header lines, an empty
    line, the board and an empty line. *)
Definition report (s : GameState) (verdict : option IdType) : string :=
  "size:     " +:+ pretty (grid_width s) +:+ " x " +:+ pretty (grid_height s) +:+ endl
  +:+ "turn:     " +:+ pretty (Z.of_nat (length (history s))) +:+ endl
  +:+ match verdict with
      | Some winner =>
          "terminal: " +:+ "YES (player " +:+ pretty winner +:+ " is a winner)" +:+ endl
      | None => "terminal: NO" +:+ endl
      end
  +:+ endl +:+ render_grid (grid s) +:+ endl.

(** [text] ends with [tail]. *)
Definition ends_with (text tail : string) : Prop :=
  exists pre, text = pre +:+ tail.

(** The last line written by [main] when it returns from the loop: the
    end of the game, or the error message of [make_turn]. *)
Definition last_line (out : string) : Prop :=
  ends_with out ("gg" +:+ endl) \/
  ends_with out ("error: " +:+ err_range +:+ endl) \/
  ends_with out ("error: " +:+ err_full +:+ endl).

(** A run of [main]: player 1 fills column 0 and wins on the seventh
    input; two more inputs are left unread. *)
Definition short_input : list Z := [0; 1; 0; 1; 0; 1; 0; 5; 5].

Definition short_exit : Exit :=
  Eval vm_compute in
    match main short_input with
    | Ok e => e
    | UB | Throw => {| exit_code := 1; output := ""; unread := [] |}
    end.

(** Two states after a move of player 3, and of player 4, in column 2 of
    the empty 10 x 10 grid. *)
Definition third_player : GameState := Eval vm_compute in after_turns [(2, 3)].
Definition fourth_player : GameState := Eval vm_compute in after_turns [(2, 4)].

(** * Properties *)

(** ** Machine integers *)

Lemma to_size_t_id z : is_size_t z -> to_size_t z = z.
Proof. unfold is_size_t, SIZE_MAX, to_size_t. intros H. apply Z.mod_small. lia. Qed.

Lemma to_int_id z : is_int z -> to_int z = z.
Proof.
  unfold is_int, INT_MIN, INT_MAX, to_int. intros H.
  rewrite Z.mod_small; lia.
Qed.

Lemma to_size_t_range z : is_size_t (to_size_t z).
Proof.
  unfold is_size_t, SIZE_MAX, to_size_t.
  pose proof (Z.mod_pos_bound z 18446744073709551616). lia.
Qed.

Lemma to_int_range z : is_int (to_int z).
Proof.
  unfold is_int, INT_MIN, INT_MAX, to_int.
  pose proof (Z.mod_pos_bound (z + 2147483648) 4294967296). lia.
Qed.

(** A negative [int] converted to [size_t] lands in the top of the range. *)
Lemma to_size_t_neg z : INT_MIN <= z < 0 -> to_size_t z = z + 18446744073709551616.
Proof.
  unfold INT_MIN, to_size_t. intros H.
  symmetry. apply (Z.mod_unique_pos z _ (-1)); lia.
Qed.

(** Narrowing to [int] only looks at the low 32 bits. *)
Lemma to_int_to_size_t z : to_int (to_size_t z) = to_int z.
Proof.
  unfold to_int, to_size_t. f_equal.
  Z.div_mod_to_equations. lia.
Qed.

Lemma back_off_small t : 0 <= t <= INT_MAX -> back_off t = t - 3.
Proof.
  unfold INT_MAX, back_off, line_offset, line_len. intros H.
  rewrite to_int_to_size_t, to_size_t_id by (unfold is_size_t, SIZE_MAX; lia).
  apply to_int_id. unfold is_int, INT_MIN, INT_MAX. lia.
Qed.

Lemma forward_off_small t : 0 <= t <= INT_MAX - 3 -> forward_off t = t + 3.
Proof.
  unfold INT_MAX, forward_off, line_offset, line_len. intros H.
  rewrite to_int_to_size_t, to_size_t_id by (unfold is_size_t, SIZE_MAX; lia).
  apply to_int_id. unfold is_int, INT_MIN, INT_MAX. lia.
Qed.

Lemma int_add_ok a b : is_int (a + b) -> int_add a b = Ok (a + b).
Proof.
  unfold is_int, int_add. intros [H1 H2].
  apply Z.leb_le in H1, H2. now rewrite H1, H2.
Qed.

Lemma int_add_overflow a b : INT_MAX < a + b -> int_add a b = UB.
Proof.
  unfold int_add. intros H.
  apply Z.leb_gt in H. rewrite H. now rewrite andb_false_r.
Qed.

(** ** Well-formed states and grid access *)

Lemma wf_row s i r :
  wf s -> grid s !! i = Some r -> length r = Z.to_nat (grid_width s).
Proof.
  intros (_ & _ & _ & HF) Hi.
  rewrite Forall_forall in HF. apply HF.
  apply list_elem_of_lookup. eauto.
Qed.

Lemma get_cell_in_grid s row col :
  wf s -> in_grid s row col -> exists v, get_cell (grid s) row col = Ok v.
Proof.
  intros Hwf [Hr Hc]. pose proof Hwf as (Hw & Hh & Hlen & _).
  unfold get_cell, SIZE_MAX, INT_MAX in *.
  rewrite !to_size_t_id by (unfold is_size_t, SIZE_MAX; lia).
  destruct (grid s !! Z.to_nat row) as [r|] eqn:Er.
  - pose proof (wf_row _ _ _ Hwf Er) as Hl.
    destruct (r !! Z.to_nat col) as [v|] eqn:Ec; [eauto|].
    apply lookup_ge_None in Ec. lia.
  - apply lookup_ge_None in Er. lia.
Qed.

(** Reading outside the grid is undefined. *)
Lemma get_cell_outside s row col :
  wf s -> grid_width s <= INT_MAX ->
  is_int row -> is_int col -> ~ in_grid s row col ->
  get_cell (grid s) row col = UB.
Proof.
  intros Hwf Hwi Hir Hic Hout. pose proof Hwf as (Hw & Hh & Hlen & _).
  unfold get_cell, in_grid, is_int, SIZE_MAX, INT_MAX, INT_MIN in *.
  destruct (grid s !! Z.to_nat (to_size_t row)) as [r|] eqn:Er; [|reflexivity].
  pose proof (wf_row _ _ _ Hwf Er) as Hl.
  apply lookup_lt_Some in Er.
  destruct (r !! Z.to_nat (to_size_t col)) as [v|] eqn:Ec; [|reflexivity].
  apply lookup_lt_Some in Ec. exfalso.
  assert (0 <= row < grid_height s) as Hr'.
  { destruct (Z.neg_nonneg_cases row) as [Hn|Hn].
    - rewrite to_size_t_neg in Er by (unfold INT_MIN; lia). lia.
    - rewrite to_size_t_id in Er by (unfold is_size_t, SIZE_MAX; lia). lia. }
  assert (0 <= col < grid_width s) as Hc'.
  { destruct (Z.neg_nonneg_cases col) as [Hn|Hn].
    - rewrite to_size_t_neg in Ec by (unfold INT_MIN; lia). lia.
    - rewrite to_size_t_id in Ec by (unfold is_size_t, SIZE_MAX; lia). lia. }
  tauto.
Qed.

(** ** [init_state] *)

Lemma new_row_ok width :
  width <= max_size -> new_row width = Ok (replicate (Z.to_nat width) EMPTY_COLOR).
Proof.
  intros Hw. unfold new_row.
  destruct (Z.gtb_spec width max_size); [lia|reflexivity].
Qed.

(** A row longer than [max_size] is refused by the vector constructor. *)
Lemma new_row_throw width : max_size < width -> new_row width = Throw.
Proof.
  intros Hw. unfold new_row.
  destruct (Z.gtb_spec width max_size); [reflexivity|lia].
Qed.

Lemma init_rows_ok n : forall i width g,
  width <= max_size -> 0 <= i -> i + Z.of_nat n <= INT_MAX ->
  init_rows n i width g
  = Ok (g ++ replicate n (replicate (Z.to_nat width) EMPTY_COLOR)).
Proof.
  induction n as [|n IH]; intros i width g Hw Hi Hn; cbn [init_rows].
  - now rewrite app_nil_r.
  - rewrite new_row_ok by exact Hw. cbn [bind].
    rewrite int_add_ok by (unfold is_int, INT_MIN, INT_MAX in *; lia). cbn [bind].
    rewrite IH by lia. now rewrite <- app_assoc.
Qed.

(** Past [INT_MAX] rows the increment of the [int] counter overflows. *)
Lemma init_rows_overflow n : forall i width g,
  width <= max_size -> is_int i -> INT_MAX < i + Z.of_nat n ->
  init_rows n i width g = UB.
Proof.
  induction n as [|n IH]; intros i width g Hw Hi Hn; cbn [init_rows].
  - unfold is_int in Hi. lia.
  - rewrite new_row_ok by exact Hw. cbn [bind].
    destruct (Z.eq_dec i INT_MAX) as [->|Hne].
    + reflexivity.
    + rewrite int_add_ok by (unfold is_int, INT_MIN, INT_MAX in *; lia). cbn [bind].
      apply IH; [exact Hw|unfold is_int, INT_MIN, INT_MAX in *; lia..].
Qed.

(** The first row is built before the counter moves: a width above
    [max_size] throws whatever the number of rows. *)
Lemma init_rows_throw n i width g :
  max_size < width -> init_rows (S n) i width g = Throw.
Proof. intros Hw. cbn [init_rows]. now rewrite new_row_throw. Qed.

Lemma init_state_zero width height :
  init_state width height = Ok None <-> width = 0 \/ height = 0.
Proof.
  unfold init_state.
  destruct (width =? 0) eqn:Ew; [apply Z.eqb_eq in Ew; simpl; tauto|].
  destruct (height =? 0) eqn:Eh; [apply Z.eqb_eq in Eh; simpl; tauto|].
  apply Z.eqb_neq in Ew, Eh. simpl.
  split; [|tauto].
  destruct (init_rows _ _ _ _); simpl; discriminate.
Qed.

Lemma init_state_ok width height :
  0 < width <= max_size -> 0 < height <= INT_MAX ->
  init_state width height
  = Ok (Some {| grid := empty_grid width height; grid_width := width;
                grid_height := height; history := [] |}).
Proof.
  intros Hw Hh. unfold init_state.
  destruct (Z.eqb_spec width 0); [lia|]. destruct (Z.eqb_spec height 0); [lia|].
  simpl. rewrite init_rows_ok by lia. reflexivity.
Qed.

Lemma init_state_overflow width height :
  width <> 0 -> width <= max_size -> INT_MAX < height ->
  init_state width height = UB.
Proof.
  intros Hw Hm Hh. unfold init_state.
  destruct (Z.eqb_spec width 0); [lia|].
  destruct (Z.eqb_spec height 0); [unfold INT_MAX in *; lia|].
  simpl. rewrite init_rows_overflow; [reflexivity|exact Hm| |].
  - unfold is_int, INT_MIN, INT_MAX; lia.
  - unfold INT_MAX in *. lia.
Qed.

(** A width above [max_size] and a positive height: the constructor of
    the first row throws [std::length_error]. *)
Lemma init_state_throw width height :
  max_size < width -> 0 < height -> init_state width height = Throw.
Proof.
  intros Hw Hh. unfold init_state, max_size in *.
  destruct (Z.eqb_spec width 0); [lia|]. destruct (Z.eqb_spec height 0); [lia|].
  cbn [orb].
  destruct (Z.to_nat height) as [|rows] eqn:En; [lia|].
  now rewrite init_rows_throw.
Qed.

Lemma init_state_some width height s :
  init_state width height = Ok (Some s) -> is_size_t height ->
  0 <> width /\ 0 < height <= INT_MAX.
Proof.
  intros Hs Hh. unfold is_size_t in Hh.
  destruct (Z.eq_dec width 0) as [->|Hw0].
  { rewrite (proj2 (init_state_zero 0 height)) in Hs by auto. discriminate. }
  destruct (Z.eq_dec height 0) as [->|Hh0].
  { rewrite (proj2 (init_state_zero width 0)) in Hs by auto. discriminate. }
  destruct (Z_le_gt_dec width max_size) as [Hm|Hm];
    [|rewrite init_state_throw in Hs by lia; discriminate].
  destruct (Z_le_gt_dec height INT_MAX) as [Hle|Hgt]; [lia|].
  rewrite init_state_overflow in Hs by lia. discriminate.
Qed.

(** A state is built only with rows that the vector constructor accepts. *)
Lemma init_state_some_width width height s :
  init_state width height = Ok (Some s) -> is_size_t height ->
  width <= max_size.
Proof.
  intros Hs Hh. unfold is_size_t in Hh.
  destruct (Z.eq_dec height 0) as [->|Hh0].
  { rewrite (proj2 (init_state_zero width 0)) in Hs by auto. discriminate. }
  destruct (Z_le_gt_dec width max_size) as [Hm|Hm]; [exact Hm|].
  rewrite init_state_throw in Hs by lia. discriminate.
Qed.

Lemma empty_grid_cell width height row col :
  0 <= row < height -> 0 <= col < width -> height <= SIZE_MAX -> width <= SIZE_MAX ->
  get_cell (empty_grid width height) row col = Ok EMPTY_COLOR.
Proof.
  intros Hr Hc Hh Hw. unfold get_cell, empty_grid.
  rewrite !to_size_t_id by (unfold is_size_t; lia).
  rewrite lookup_replicate_2 by lia.
  rewrite lookup_replicate_2 by lia. reflexivity.
Qed.

Lemma empty_grid_wf width height :
  0 < width <= SIZE_MAX -> 0 < height <= INT_MAX ->
  wf {| grid := empty_grid width height; grid_width := width;
        grid_height := height; history := [] |}.
Proof.
  intros Hw Hh. unfold wf, empty_grid; simpl.
  repeat split; try lia.
  - apply length_replicate.
  - apply Forall_forall. intros r Hr.
    apply elem_of_replicate in Hr as [-> _].
    apply length_replicate.
Qed.

(** ** Reading and writing cells *)

Lemma set_cell_ok s row col v :
  wf s -> in_grid s row col -> exists g, set_cell (grid s) row col v = Ok g.
Proof.
  intros Hwf Hin.
  destruct (get_cell_in_grid s row col Hwf Hin) as [x Hx].
  unfold get_cell in Hx. unfold set_cell.
  destruct (grid s !! Z.to_nat (to_size_t row)) as [r|]; [|discriminate].
  destruct (r !! Z.to_nat (to_size_t col)); [eauto|discriminate].
Qed.

Lemma get_set_same g row col v g' :
  set_cell g row col v = Ok g' -> get_cell g' row col = Ok v.
Proof.
  unfold set_cell, get_cell. intros H.
  destruct (g !! Z.to_nat (to_size_t row)) as [r|] eqn:Er; [|discriminate].
  destruct (r !! Z.to_nat (to_size_t col)) as [x|] eqn:Ec; [|discriminate].
  injection H as <-.
  apply lookup_lt_Some in Er, Ec.
  rewrite list_lookup_insert_eq by exact Er.
  rewrite list_lookup_insert_eq by exact Ec. reflexivity.
Qed.

Lemma get_set_other g row col v g' row' col' :
  set_cell g row col v = Ok g' ->
  is_size_t row -> is_size_t col -> is_size_t row' -> is_size_t col' ->
  (row', col') <> (row, col) ->
  get_cell g' row' col' = get_cell g row' col'.
Proof.
  unfold set_cell, get_cell. intros H Hr Hc Hr' Hc' Hne.
  rewrite !to_size_t_id in * by assumption.
  destruct (g !! Z.to_nat row) as [r|] eqn:Er; [|discriminate].
  destruct (r !! Z.to_nat col) as [x|] eqn:Ec; [|discriminate].
  injection H as <-.
  destruct (decide (Z.to_nat row = Z.to_nat row')) as [Heq|Hneq].
  - rewrite <- Heq, Er.
    rewrite list_lookup_insert_eq by (eapply lookup_lt_Some; eassumption).
    rewrite list_lookup_insert_ne; [reflexivity|].
    intros Hcc. apply Hne. unfold is_size_t in *. f_equal; lia.
  - rewrite list_lookup_insert_ne by exact Hneq. reflexivity.
Qed.

Lemma set_cell_length g row col v g' :
  set_cell g row col v = Ok g' -> length g' = length g.
Proof.
  unfold set_cell. intros H.
  destruct (g !! _) as [r|]; [|discriminate].
  destruct (r !! _); [|discriminate].
  injection H as <-. apply length_insert.
Qed.

Lemma set_cell_rows g row col v g' n :
  set_cell g row col v = Ok g' ->
  Forall (fun r => length r = n) g -> Forall (fun r => length r = n) g'.
Proof.
  unfold set_cell. intros H HF.
  destruct (g !! _) as [r|] eqn:Er; [|discriminate].
  destruct (r !! _); [|discriminate].
  injection H as <-.
  apply Forall_insert; [exact HF|].
  rewrite length_insert.
  rewrite Forall_forall in HF. apply HF, list_elem_of_lookup. eauto.
Qed.

(** ** [trace_row_coordinate]: the landing row *)

Lemma lowest_empty_unique s col r1 r2 :
  lowest_empty s col r1 -> lowest_empty s col r2 -> r1 = r2.
Proof.
  intros (H1 & E1 & B1) (H2 & E2 & B2).
  destruct (Z.lt_trichotomy r1 r2) as [Hlt|[Heq|Hgt]]; [|exact Heq|].
  - destruct (B1 r2) as (v & Hv & Hne); [lia|]. congruence.
  - destruct (B2 r1) as (v & Hv & Hne); [lia|]. congruence.
Qed.

Lemma lowest_empty_not_full s col row :
  lowest_empty s col row -> ~ column_full s col.
Proof.
  intros (H1 & E1 & _) Hfull.
  destruct (Hfull row H1) as (v & Hv & Hne). congruence.
Qed.

Lemma trace_loop_spec s col n :
  wf s -> 0 <= col < grid_width s -> Z.of_nat n <= grid_height s ->
  match trace_loop (grid s) col n (Z.of_nat n - 1) with
  | Ok (Some row) =>
      0 <= row < Z.of_nat n /\
      get_cell (grid s) row col = Ok EMPTY_COLOR /\
      forall row', row < row' < Z.of_nat n ->
        exists v, get_cell (grid s) row' col = Ok v /\ v <> EMPTY_COLOR
  | Ok None =>
      forall row', 0 <= row' < Z.of_nat n ->
        exists v, get_cell (grid s) row' col = Ok v /\ v <> EMPTY_COLOR
  | UB | Throw => False
  end.
Proof.
  intros Hwf Hc. induction n as [|n IH]; intros Hn.
  - simpl. intros row' Hr. lia.
  - cbn [trace_loop].
    destruct (get_cell_in_grid s (Z.of_nat (S n) - 1) col Hwf) as [v Hv].
    { unfold in_grid. lia. }
    rewrite Hv. cbn [bind].
    destruct (Z.eqb_spec v EMPTY_COLOR) as [->|Hne].
    + pose proof Hwf as (_ & Hh & _). unfold INT_MAX in Hh.
      rewrite to_size_t_id by (unfold is_size_t, SIZE_MAX; lia).
      split; [lia|]. split; [exact Hv|]. intros row' Hr. lia.
    + replace (Z.of_nat (S n) - 1 - 1) with (Z.of_nat n - 1) by lia.
      specialize (IH ltac:(lia)).
      destruct (trace_loop (grid s) col n (Z.of_nat n - 1)) as [[row|]| |].
      * destruct IH as (H1 & H2 & H3). split; [lia|]. split; [exact H2|].
        intros row' Hr.
        destruct (Z.eq_dec row' (Z.of_nat (S n) - 1)) as [->|Hd]; [eauto|].
        apply H3. lia.
      * intros row' Hr.
        destruct (Z.eq_dec row' (Z.of_nat (S n) - 1)) as [->|Hd]; [eauto|].
        apply IH. lia.
      * exact IH.
      * exact IH.
Qed.

Lemma trace_row_coordinate_unfold s col :
  wf s -> 0 <= col < grid_width s ->
  trace_row_coordinate s col
  = trace_loop (grid s) col (Z.to_nat (grid_height s)) (grid_height s - 1).
Proof.
  intros (_ & Hh & _) Hc. unfold trace_row_coordinate, INT_MAX in *.
  destruct (Z.ltb_spec col 0); [lia|].
  destruct (Z.geb_spec col (grid_width s)); [lia|]. simpl.
  rewrite to_size_t_id by (unfold is_size_t, SIZE_MAX; lia).
  rewrite to_int_id by (unfold is_int, INT_MIN, INT_MAX; lia).
  f_equal. lia.
Qed.

(** The landing row computed by [trace_row_coordinate]. *)
Lemma trace_row_coordinate_spec s col :
  wf s -> 0 <= col < grid_width s ->
  (exists row, trace_row_coordinate s col = Ok (Some row) /\ lowest_empty s col row)
  \/ (trace_row_coordinate s col = Ok None /\ column_full s col).
Proof.
  intros Hwf Hc. rewrite trace_row_coordinate_unfold by assumption.
  pose proof Hwf as (_ & Hh & _).
  pose proof (trace_loop_spec s col (Z.to_nat (grid_height s)) Hwf Hc ltac:(lia)) as H.
  replace (Z.of_nat (Z.to_nat (grid_height s))) with (grid_height s) in H by lia.
  destruct (trace_loop _ _ _ _) as [[row|]| |]; [left|right|contradiction..].
  - exists row. split; [reflexivity|exact H].
  - split; [reflexivity|exact H].
Qed.

Lemma trace_row_coordinate_some s col row :
  wf s -> 0 <= col < grid_width s ->
  trace_row_coordinate s col = Ok (Some row) <-> lowest_empty s col row.
Proof.
  intros Hwf Hc.
  destruct (trace_row_coordinate_spec s col Hwf Hc) as [(r & Hr & Hl)|[Hn Hf]].
  - rewrite Hr. split.
    + intros [= <-]. exact Hl.
    + intros Hl'. now rewrite (lowest_empty_unique _ _ _ _ Hl Hl').
  - rewrite Hn. split; [discriminate|].
    intros Hl. now apply lowest_empty_not_full in Hl.
Qed.

Lemma trace_row_coordinate_none s col :
  wf s -> 0 <= col < grid_width s ->
  trace_row_coordinate s col = Ok None <-> column_full s col.
Proof.
  intros Hwf Hc.
  destruct (trace_row_coordinate_spec s col Hwf Hc) as [(r & Hr & Hl)|[Hn Hf]].
  - rewrite Hr. split; [discriminate|].
    intros Hf. now apply lowest_empty_not_full in Hl.
  - rewrite Hn. tauto.
Qed.

Lemma trace_row_coordinate_outside s col :
  ~ 0 <= col < grid_width s -> trace_row_coordinate s col = Ok None.
Proof.
  intros Hc. unfold trace_row_coordinate.
  destruct (Z.ltb_spec col 0); [reflexivity|].
  destruct (Z.geb_spec col (grid_width s)); [reflexivity|lia].
Qed.

(** ** [make_turn]: the three outcomes *)

Lemma make_turn_outside s col p :
  ~ 0 <= col < grid_width s -> make_turn s col p = Ok (Some err_range, s).
Proof.
  intros Hc. unfold make_turn.
  destruct (Z.ltb_spec col 0); [reflexivity|].
  destruct (Z.geb_spec col (grid_width s)); [reflexivity|lia].
Qed.

Lemma make_turn_inside s col p :
  0 <= col < grid_width s ->
  make_turn s col p
  = do row_i_opt <- trace_row_coordinate s col;
    match row_i_opt with
    | None => Ok (Some err_full, s)
    | Some row_i =>
        do g <- set_cell (grid s) row_i col p;
        Ok (None, placed s g row_i col p)
    end.
Proof.
  intros Hc. unfold make_turn.
  destruct (Z.ltb_spec col 0); [lia|].
  destruct (Z.geb_spec col (grid_width s)); [lia|]. reflexivity.
Qed.

Lemma make_turn_full s col p :
  wf s -> 0 <= col < grid_width s -> column_full s col ->
  make_turn s col p = Ok (Some err_full, s).
Proof.
  intros Hwf Hc Hf. rewrite make_turn_inside by exact Hc.
  apply trace_row_coordinate_none in Hf; [|assumption..].
  now rewrite Hf.
Qed.

Lemma make_turn_place s col p row :
  wf s -> 0 <= col < grid_width s -> lowest_empty s col row ->
  exists g, set_cell (grid s) row col p = Ok g /\
            make_turn s col p = Ok (None, placed s g row col p).
Proof.
  intros Hwf Hc Hl. rewrite make_turn_inside by exact Hc.
  destruct (set_cell_ok s row col p Hwf) as [g Hg].
  { destruct Hl as (Hr & _). split; assumption. }
  apply trace_row_coordinate_some in Hl; [|assumption..].
  rewrite Hl. simpl. rewrite Hg. simpl. eauto.
Qed.

(** On a well-formed state [make_turn] is defined, and its outcome is one
    of: range error, column-full error, or a placement on the lowest
    empty cell. *)
Lemma make_turn_cases s col p :
  wf s ->
  (~ 0 <= col < grid_width s /\ make_turn s col p = Ok (Some err_range, s)) \/
  (0 <= col < grid_width s /\ column_full s col /\
   make_turn s col p = Ok (Some err_full, s)) \/
  (0 <= col < grid_width s /\
   exists row g, lowest_empty s col row /\ set_cell (grid s) row col p = Ok g /\
                 make_turn s col p = Ok (None, placed s g row col p)).
Proof.
  intros Hwf.
  destruct (decide (0 <= col < grid_width s)) as [Hc|Hc].
  - right.
    destruct (trace_row_coordinate_spec s col Hwf Hc) as [(row & Hr & Hl)|[Hn Hf]].
    + right. split; [exact Hc|].
      destruct (make_turn_place s col p row Hwf Hc Hl) as (g & Hg & Hm).
      exists row, g. auto.
    + left. split; [exact Hc|]. split; [exact Hf|].
      now apply make_turn_full.
  - left. split; [exact Hc|]. now apply make_turn_outside.
Qed.

Lemma placed_wf s g row col p :
  wf s -> set_cell (grid s) row col p = Ok g -> wf (placed s g row col p).
Proof.
  intros (Hw & Hh & Hlen & HF) Hg. unfold wf, placed; simpl.
  split; [exact Hw|]. split; [exact Hh|]. split.
  - rewrite (set_cell_length _ _ _ _ _ Hg). exact Hlen.
  - eapply set_cell_rows; eassumption.
Qed.

Lemma make_turn_wf s col p r s' :
  wf s -> make_turn s col p = Ok (r, s') -> wf s'.
Proof.
  intros Hwf Hm.
  destruct (make_turn_cases s col p Hwf)
    as [[_ H]|[(_ & _ & H)|(_ & row & g & _ & Hg & H)]];
    rewrite H in Hm; injection Hm as <- <-; [assumption..|].
  now apply placed_wf.
Qed.

Lemma err_messages_differ : err_range <> err_full.
Proof. discriminate. Qed.

(** ** Reachable states *)

(** Every reachable state is well formed; in particular its height is at
    most [INT_MAX], the largest height for which [init_state] returns. *)
Lemma reachable_wf s : reachable s -> wf s.
Proof.
  induction 1 as [width height s Hw Hh Hs|s col p r s' _ IH Hm].
  - destruct (init_state_some width height s Hs Hh) as [Hw0 Hh0].
    assert (0 < width <= max_size) as Hw1
    by (pose proof (init_state_some_width width height s Hs Hh);
        unfold is_size_t in Hw; lia).
    rewrite init_state_ok in Hs by assumption. injection Hs as <-.
    apply empty_grid_wf; unfold is_size_t in *; lia.
  - eapply make_turn_wf; eassumption.
Qed.

(** On a reachable state [make_turn] always returns. *)
Lemma reachable_make_turn s col p :
  reachable s -> exists r s', make_turn s col p = Ok (r, s').
Proof.
  intros Hs. apply reachable_wf in Hs.
  destruct (make_turn_cases s col p Hs)
    as [[_ H]|[(_ & _ & H)|(_ & row & g & _ & _ & H)]]; rewrite H; eauto.
Qed.

(** ** [check_line]: one step of the scan *)

Lemma leaves_inside dim x :
  0 < dim <= SIZE_MAX -> 0 <= x < dim -> leaves dim x = false.
Proof.
  unfold leaves, SIZE_MAX. intros Hd Hx.
  rewrite !to_size_t_id by (unfold is_size_t, SIZE_MAX; lia).
  rewrite Z.gtb_ltb. apply orb_false_iff. split; apply Z.ltb_ge; lia.
Qed.

Lemma leaves_outside dim x :
  0 < dim <= SIZE_MAX -> is_int x -> ~ 0 <= x < dim -> leaves dim x = true.
Proof.
  unfold leaves, SIZE_MAX, is_int, INT_MIN, INT_MAX. intros Hd Hi Hx.
  destruct (Z.ltb_spec x 0) as [Hn|Hn]; [apply orb_true_r|].
  rewrite !to_size_t_id by (unfold is_size_t, SIZE_MAX; lia).
  rewrite orb_false_r. rewrite Z.gtb_ltb. apply Z.ltb_lt. lia.
Qed.

(** One iteration of the loop from a cell of the grid: the counter is
    updated from the cell, and the scan goes on exactly when the next
    cell is in the grid. *)
Lemma check_line_loop_step s n cnt row col dr dc p v :
  wf s -> grid_width s <= INT_MAX ->
  unit_step dr -> unit_step dc ->
  in_grid s row col -> get_cell (grid s) row col = Ok v ->
  check_line_loop s (S n) cnt row col dr dc p
  = let cnt' := if v =? p then cnt + 1 else 0 in
    if cnt' =? line_len then Ok true
    else if decide (in_grid s (row + dr) (col + dc))
         then check_line_loop s n cnt' (row + dr) (col + dc) dr dc p
         else Ok false.
Proof.
  intros Hwf Hwi Hdr Hdc [Hr Hc] Hv.
  pose proof Hwf as (Hw & Hh & _).
  unfold unit_step, INT_MAX, SIZE_MAX in *.
  cbn [check_line_loop]. rewrite Hv. cbn [bind].
  cbv zeta. destruct (_ =? line_len); [reflexivity|].
  rewrite !int_add_ok by (unfold is_int, INT_MIN, INT_MAX; lia). cbn [bind].
  fold (leaves (grid_height s) (row + dr)). fold (leaves (grid_width s) (col + dc)).
  destruct (decide (in_grid s (row + dr) (col + dc))) as [[Hr' Hc']|Hout].
  - rewrite !leaves_inside by (unfold SIZE_MAX; lia). reflexivity.
  - destruct (decide (0 <= row + dr < grid_height s)) as [Hr'|Hr'].
    + rewrite (leaves_inside (grid_height s) (row + dr)) by (unfold SIZE_MAX; lia).
      rewrite leaves_outside; [reflexivity|unfold SIZE_MAX; lia| |].
      * unfold is_int, INT_MIN, INT_MAX; lia.
      * intros Hc'. apply Hout. split; assumption.
    + rewrite leaves_outside; [reflexivity|unfold SIZE_MAX; lia| |assumption].
      unfold is_int, INT_MIN, INT_MAX; lia.
Qed.

(** From a cell of the grid the scan never reads outside the grid: it
    always returns. *)
Lemma check_line_loop_safe s dr dc p n : forall cnt row col,
  wf s -> grid_width s <= INT_MAX ->
  unit_step dr -> unit_step dc ->
  in_grid s row col ->
  exists b, check_line_loop s n cnt row col dr dc p = Ok b.
Proof.
  induction n as [|n IH]; intros cnt row col Hwf Hwi Hdr Hdc Hin.
  - simpl. eauto.
  - destruct (get_cell_in_grid s row col Hwf Hin) as [v Hv].
    rewrite (check_line_loop_step s n cnt row col dr dc p v) by assumption.
    cbv zeta. destruct (_ =? line_len); [eauto|].
    destruct (decide _) as [Hin'|_]; [|eauto].
    now apply IH.
Qed.

(** The scan stops with [false] when the cursor leaves the grid. *)
Lemma check_line_loop_exit s n cnt row col dr dc p v :
  wf s -> grid_width s <= INT_MAX ->
  unit_step dr -> unit_step dc ->
  in_grid s row col -> get_cell (grid s) row col = Ok v ->
  (if v =? p then cnt + 1 else 0) <> line_len ->
  ~ in_grid s (row + dr) (col + dc) ->
  check_line_loop s (S n) cnt row col dr dc p = Ok false.
Proof.
  intros Hwf Hwi Hdr Hdc Hin Hv Hcnt Hout.
  rewrite (check_line_loop_step s n cnt row col dr dc p v) by assumption.
  cbv zeta. destruct (Z.eqb_spec (if v =? p then cnt + 1 else 0) line_len); [contradiction|].
  destruct (decide _); [contradiction|reflexivity].
Qed.

(** Started outside the grid, the scan reads outside the grid. *)
Lemma check_line_loop_outside s n cnt row col dr dc p :
  wf s -> grid_width s <= INT_MAX ->
  is_int row -> is_int col -> ~ in_grid s row col ->
  check_line_loop s (S n) cnt row col dr dc p = UB.
Proof.
  intros Hwf Hwi Hr Hc Hout. cbn [check_line_loop].
  now rewrite get_cell_outside.
Qed.

(** ** Runs of tokens along a line *)

Section Scan.

Variable s : GameState.
Variables dr dc : Z.
Variable p : IdType.
Hypothesis Hwf : wf s.
Hypothesis Hwidth : grid_width s <= INT_MAX.
Hypothesis Hdr : unit_step dr.
Hypothesis Hdc : unit_step dc.

(** A run that brings the counter to [line_len] makes the scan succeed. *)
Lemma check_line_loop_run k : forall n cnt row col,
  (k <= n)%nat -> 0 <= cnt < line_len -> line_len <= cnt + Z.of_nat k ->
  run_from s row col dr dc p k ->
  check_line_loop s n cnt row col dr dc p = Ok true.
Proof using Hwf Hwidth Hdr Hdc.
  unfold line_len.
  induction k as [|k IH]; intros n cnt row col Hn Hcnt Hk Hrun; [lia|].
  destruct n as [|n]; [lia|].
  destruct Hrun as (Hin & Hv & Hrest).
  rewrite (check_line_loop_step s n cnt row col dr dc p p) by assumption.
  cbv zeta. rewrite Z.eqb_refl. unfold line_len.
  destruct (Z.eqb_spec (cnt + 1) 4) as [_|Hne]; [reflexivity|].
  destruct k as [|k]; [lia|].
  destruct (decide _) as [_|Hout]; [|destruct Hrest as [Hin' _]; contradiction].
  apply IH; [lia|lia|lia|exact Hrest].
Qed.

(** A run of [line_len] tokens that starts [m] cells after the start of
    the scan is found when the scan is long enough. *)
Lemma check_line_loop_finds m : forall n cnt row col,
  (m + 4 <= n)%nat -> 0 <= cnt < line_len ->
  path_in s row col dr dc m ->
  run_from s (row + Z.of_nat m * dr) (col + Z.of_nat m * dc) dr dc p 4 ->
  check_line_loop s n cnt row col dr dc p = Ok true.
Proof using Hwf Hwidth Hdr Hdc.
  induction m as [|m IH]; intros n cnt row col Hn Hcnt Hpath Hrun.
  - replace (row + Z.of_nat 0 * dr) with row in Hrun by lia.
    replace (col + Z.of_nat 0 * dc) with col in Hrun by lia.
    apply (check_line_loop_run 4); [lia|assumption|unfold line_len in *; lia|assumption].
  - destruct n as [|n]; [lia|].
    destruct Hpath as [Hin Hpath].
    destruct (get_cell_in_grid s row col Hwf Hin) as [v Hv].
    rewrite (check_line_loop_step s n cnt row col dr dc p v) by assumption.
    cbv zeta.
    destruct (Z.eqb_spec (if v =? p then cnt + 1 else 0) line_len) as [_|Hne];
      [reflexivity|].
    replace (row + Z.of_nat (S m) * dr) with (row + dr + Z.of_nat m * dr) in Hrun by lia.
    replace (col + Z.of_nat (S m) * dc) with (col + dc + Z.of_nat m * dc) in Hrun by lia.
    assert (in_grid s (row + dr) (col + dc)) as Hin'.
    { destruct m as [|m].
      - replace (row + dr + Z.of_nat 0 * dr) with (row + dr) in Hrun by lia.
        replace (col + dc + Z.of_nat 0 * dc) with (col + dc) in Hrun by lia.
        apply Hrun.
      - apply Hpath. }
    destruct (decide _) as [_|Hout]; [|contradiction].
    apply IH; [lia| |assumption|assumption].
    unfold line_len in *. destruct (v =? p); lia.
Qed.

(** A successful scan has seen [line_len] consecutive tokens: either the
    counter was completed by the first cells, or a full run lies further
    along the line. *)
Lemma check_line_loop_true n : forall cnt row col,
  in_grid s row col -> 0 <= cnt < line_len ->
  check_line_loop s n cnt row col dr dc p = Ok true ->
  exists m k : nat,
    (k = 4%nat \/ (m = 0%nat /\ cnt + Z.of_nat k = line_len)) /\
    (m + k <= n)%nat /\
    run_from s (row + Z.of_nat m * dr) (col + Z.of_nat m * dc) dr dc p k.
Proof using Hwf Hwidth Hdr Hdc.
  induction n as [|n IH]; intros cnt row col Hin Hcnt Htrue; [discriminate|].
  destruct (get_cell_in_grid s row col Hwf Hin) as [v Hv].
  rewrite (check_line_loop_step s n cnt row col dr dc p v) in Htrue by assumption.
  cbv zeta in Htrue.
  destruct (v =? p) eqn:Evp.
  - apply Z.eqb_eq in Evp. subst v.
    destruct (cnt + 1 =? line_len) eqn:Hfull;
      [apply Z.eqb_eq in Hfull|apply Z.eqb_neq in Hfull].
    + exists 0%nat, 1%nat. split; [right; split; [reflexivity|lia]|].
      split; [lia|]. simpl.
      replace (row + Z.of_nat 0 * dr) with row by lia.
      replace (col + Z.of_nat 0 * dc) with col by lia.
      auto.
    + destruct (decide _) as [Hin'|_]; [|discriminate].
      destruct (IH (cnt + 1) _ _ Hin' ltac:(lia) Htrue) as (m & k & Hk & Hmk & Hrun).
      destruct Hk as [->|[-> Hk]].
      * exists (S m), 4%nat. split; [now left|]. split; [lia|].
        replace (row + Z.of_nat (S m) * dr) with (row + dr + Z.of_nat m * dr) by lia.
        replace (col + Z.of_nat (S m) * dc) with (col + dc + Z.of_nat m * dc) by lia.
        exact Hrun.
      * exists 0%nat, (S k). split; [right; split; [reflexivity|lia]|].
        split; [lia|].
        replace (row + dr + Z.of_nat 0 * dr) with (row + dr) in Hrun by lia.
        replace (col + dc + Z.of_nat 0 * dc) with (col + dc) in Hrun by lia.
        cbn [run_from].
        replace (row + Z.of_nat 0 * dr) with row by lia.
        replace (col + Z.of_nat 0 * dc) with col by lia.
        auto.
  - change (0 =? line_len) with false in Htrue.
    destruct (decide _) as [Hin'|_]; [|discriminate].
    destruct (IH 0 _ _ Hin' ltac:(unfold line_len; lia) Htrue)
      as (m & k & Hk & Hmk & Hrun).
    assert (k = 4%nat) as -> by (unfold line_len in Hk; lia).
    exists (S m), 4%nat. split; [now left|]. split; [lia|].
    replace (row + Z.of_nat (S m) * dr) with (row + dr + Z.of_nat m * dr) by lia.
    replace (col + Z.of_nat (S m) * dc) with (col + dc + Z.of_nat m * dc) by lia.
    exact Hrun.
Qed.

(** [check_line] from a cell of the grid returns, and returns [true]
    only when the scanned line holds a run of [line_len] tokens. *)
Lemma check_line_safe row col steps :
  in_grid s row col -> exists b, check_line s row col dr dc steps p = Ok b.
Proof using Hwf Hwidth Hdr Hdc.
  intros Hin. unfold check_line. now apply check_line_loop_safe.
Qed.

Lemma check_line_true row col steps :
  in_grid s row col ->
  check_line s row col dr dc steps p = Ok true ->
  exists m : nat,
    (m + 4 <= Z.to_nat steps)%nat /\
    run_from s (row + Z.of_nat m * dr) (col + Z.of_nat m * dc) dr dc p 4.
Proof using Hwf Hwidth Hdr Hdc.
  intros Hin Htrue. unfold check_line in Htrue.
  apply check_line_loop_true in Htrue; [|assumption|unfold line_len; lia].
  destruct Htrue as (m & k & Hk & Hmk & Hrun).
  assert (k = 4%nat) as -> by (unfold line_len in Hk; lia).
  eauto.
Qed.

Lemma check_line_finds row col (m : nat) :
  (m <= 3)%nat ->
  path_in s row col dr dc m ->
  run_from s (row + Z.of_nat m * dr) (col + Z.of_nat m * dc) dr dc p 4 ->
  check_line s row col dr dc line_steps p = Ok true.
Proof using Hwf Hwidth Hdr Hdc.
  intros Hm Hpath Hrun. unfold check_line.
  apply (check_line_loop_finds m); [|unfold line_len; lia|assumption..].
  change (Z.to_nat line_steps) with 7%nat. lia.
Qed.

End Scan.

(** Runs and paths, cell by cell. *)
Lemma run_from_cells s dr dc p k : forall row col,
  run_from s row col dr dc p k <->
  (forall j : nat, (j < k)%nat ->
     in_grid s (row + Z.of_nat j * dr) (col + Z.of_nat j * dc) /\
     get_cell (grid s) (row + Z.of_nat j * dr) (col + Z.of_nat j * dc) = Ok p).
Proof.
  induction k as [|k IH]; intros row col; cbn [run_from].
  - split; [intros _ j Hj; lia|trivial].
  - rewrite IH. split.
    + intros (Hin & Hv & Hrest) j Hj. destruct j as [|j].
      * replace (row + Z.of_nat 0 * dr) with row by lia.
        replace (col + Z.of_nat 0 * dc) with col by lia. auto.
      * replace (row + Z.of_nat (S j) * dr) with (row + dr + Z.of_nat j * dr) by lia.
        replace (col + Z.of_nat (S j) * dc) with (col + dc + Z.of_nat j * dc) by lia.
        apply Hrest. lia.
    + intros H. pose proof (H 0%nat ltac:(lia)) as H0.
      replace (row + Z.of_nat 0 * dr) with row in H0 by lia.
      replace (col + Z.of_nat 0 * dc) with col in H0 by lia.
      destruct H0 as [Hin Hv]. split; [exact Hin|]. split; [exact Hv|].
      intros j Hj. specialize (H (S j) ltac:(lia)).
      replace (row + Z.of_nat (S j) * dr) with (row + dr + Z.of_nat j * dr) in H by lia.
      replace (col + Z.of_nat (S j) * dc) with (col + dc + Z.of_nat j * dc) in H by lia.
      exact H.
Qed.

Lemma path_in_cells s dr dc m : forall row col,
  (forall j : nat, (j < m)%nat ->
     in_grid s (row + Z.of_nat j * dr) (col + Z.of_nat j * dc)) ->
  path_in s row col dr dc m.
Proof.
  induction m as [|m IH]; intros row col H; cbn [path_in]; [trivial|].
  split.
  - specialize (H 0%nat ltac:(lia)).
    replace (row + Z.of_nat 0 * dr) with row in H by lia.
    replace (col + Z.of_nat 0 * dc) with col in H by lia. exact H.
  - apply IH. intros j Hj. specialize (H (S j) ltac:(lia)).
    replace (row + Z.of_nat (S j) * dr) with (row + dr + Z.of_nat j * dr) in H by lia.
    replace (col + Z.of_nat (S j) * dc) with (col + dc + Z.of_nat j * dc) in H by lia.
    exact H.
Qed.

Lemma run_from_four s row col dr dc p :
  run_from s row col dr dc p 4 <-> four_in_line s row col dr dc p.
Proof.
  rewrite run_from_cells. unfold four_in_line, line_len. split.
  - intros H j Hj. specialize (H (Z.to_nat j) ltac:(lia)).
    now rewrite Z2Nat.id in H by lia.
  - intros H j Hj. apply H. lia.
Qed.

(** ** [is_terminal]: the four scans *)

Lemma int_columns_width s : int_columns s -> grid_width s <= INT_MAX.
Proof. unfold int_columns, line_offset, line_len. lia. Qed.

(** With the last move on a cell of the grid, and a width that leaves
    room for [line_offset] in an [int], the start coordinates are the
    clamped ones. *)
Lemma is_terminal_last s row col p :
  wf s -> int_columns s ->
  last (history s) = Some (row, col, p) -> in_grid s row col ->
  is_terminal s
  = do v <- check_line s (Z.max (row - 3) 0) col 1 0 line_steps p;
    if v then Ok (Some p) else
    do h <- check_line s row (Z.max (col - 3) 0) 0 1 line_steps p;
    if h then Ok (Some p) else
    do d1 <- check_line s (Z.max (row - 3) 0) (Z.max (col - 3) 0) 1 1 line_steps p;
    if d1 then Ok (Some p) else
    do d2 <- check_line s (Z.max (row - 3) 0) (Z.min (col + 3) (grid_width s - 1))
                        1 (-1) line_steps p;
    if d2 then Ok (Some p) else Ok None.
Proof.
  intros (Hw & Hh & _) Hwi Hlast [Hr Hc].
  unfold int_columns, line_offset, line_len, INT_MAX, SIZE_MAX in *.
  unfold is_terminal. rewrite Hlast.
  rewrite !back_off_small by (unfold INT_MAX; lia).
  rewrite forward_off_small by (unfold INT_MAX; lia).
  rewrite to_size_t_id by (unfold is_size_t, SIZE_MAX; lia).
  rewrite to_int_id by (unfold is_int, INT_MIN, INT_MAX; lia).
  reflexivity.
Qed.

Lemma is_terminal_empty s : history s = [] -> is_terminal s = Ok None.
Proof. intros H. unfold is_terminal. now rewrite H. Qed.

(** The start cells of the four scans. *)
Lemma start_cells s row col :
  in_grid s row col ->
  in_grid s (Z.max (row - 3) 0) col /\
  in_grid s row (Z.max (col - 3) 0) /\
  in_grid s (Z.max (row - 3) 0) (Z.max (col - 3) 0) /\
  in_grid s (Z.max (row - 3) 0) (Z.min (col + 3) (grid_width s - 1)).
Proof. unfold in_grid. lia. Qed.

Lemma unit_steps : unit_step 0 /\ unit_step 1 /\ unit_step (-1).
Proof. unfold unit_step. lia. Qed.

Lemma is_terminal_safe s row col p :
  wf s -> int_columns s ->
  last (history s) = Some (row, col, p) -> in_grid s row col ->
  exists r, is_terminal s = Ok r.
Proof.
  intros Hwf Hwi Hlast Hin.
  rewrite (is_terminal_last s row col p) by assumption.
  pose proof (int_columns_width s Hwi) as Hwi'.
  destruct (start_cells s row col Hin) as (Hv & Hh & Hd1 & Hd2).
  destruct unit_steps as (U0 & U1 & Um).
  destruct (check_line_safe s 1 0 p Hwf Hwi' U1 U0 _ _ line_steps Hv) as [b1 ->].
  cbn [bind]. destruct b1; [eauto|].
  destruct (check_line_safe s 0 1 p Hwf Hwi' U0 U1 _ _ line_steps Hh) as [b2 ->].
  cbn [bind]. destruct b2; [eauto|].
  destruct (check_line_safe s 1 1 p Hwf Hwi' U1 U1 _ _ line_steps Hd1) as [b3 ->].
  cbn [bind]. destruct b3; [eauto|].
  destruct (check_line_safe s 1 (-1) p Hwf Hwi' U1 Um _ _ line_steps Hd2) as [b4 ->].
  cbn [bind]. destruct b4; eauto.
Qed.

(** ** Win detection along the column and the row of the last move *)

Lemma four_in_line_ends s row col dr dc p :
  four_in_line s row col dr dc p ->
  in_grid s row col /\ in_grid s (row + 3 * dr) (col + 3 * dc).
Proof.
  intros H. split.
  - destruct (H 0 ltac:(unfold line_len; lia)) as [Hin _].
    now rewrite !Z.mul_0_l, !Z.add_0_r in Hin.
  - apply (H 3). unfold line_len; lia.
Qed.

(** Four tokens of the last player in the column of the last move, the
    last move among them, are found by the vertical scan. *)
Lemma is_terminal_vertical s row col p a :
  wf s -> int_columns s ->
  last (history s) = Some (row, col, p) -> in_grid s row col ->
  four_in_line s a col 1 0 p -> a <= row <= a + 3 ->
  is_terminal s = Ok (Some p).
Proof.
  intros Hwf Hwi Hlast Hin Hfour Ha.
  rewrite (is_terminal_last s row col p) by assumption.
  pose proof (int_columns_width s Hwi) as Hwi'.
  destruct unit_steps as (U0 & U1 & Um).
  destruct (four_in_line_ends _ _ _ _ _ _ Hfour) as [[Ha0 _] [Ha3 _]].
  destruct Hin as [Hr Hc].
  rewrite (check_line_finds s 1 0 p Hwf Hwi' U1 U0 _ _
             (Z.to_nat (a - Z.max (row - 3) 0))); [reflexivity|lia| |].
  - apply path_in_cells. intros j Hj. unfold in_grid. lia.
  - apply run_from_four.
    replace (Z.max (row - 3) 0 + Z.of_nat (Z.to_nat (a - Z.max (row - 3) 0)) * 1)
      with a by lia.
    replace (col + Z.of_nat (Z.to_nat (a - Z.max (row - 3) 0)) * 0) with col by lia.
    exact Hfour.
Qed.

(** Four tokens of the last player in the row of the last move, the last
    move among them, are found by the horizontal scan (when the vertical
    scan has not already reported the player). *)
Lemma is_terminal_horizontal s row col p a :
  wf s -> int_columns s ->
  last (history s) = Some (row, col, p) -> in_grid s row col ->
  four_in_line s row a 0 1 p -> a <= col <= a + 3 ->
  is_terminal s = Ok (Some p).
Proof.
  intros Hwf Hwi Hlast Hin Hfour Ha.
  rewrite (is_terminal_last s row col p) by assumption.
  pose proof (int_columns_width s Hwi) as Hwi'.
  destruct unit_steps as (U0 & U1 & Um).
  destruct (start_cells s row col Hin) as (Hv & _).
  destruct (check_line_safe s 1 0 p Hwf Hwi' U1 U0 _ _ line_steps Hv) as [b1 ->].
  cbn [bind]. destruct b1; [reflexivity|].
  destruct (four_in_line_ends _ _ _ _ _ _ Hfour) as [[_ Ha0] [_ Ha3]].
  destruct Hin as [Hr Hc].
  rewrite (check_line_finds s 0 1 p Hwf Hwi' U0 U1 _ _
             (Z.to_nat (a - Z.max (col - 3) 0))); [reflexivity|lia| |].
  - apply path_in_cells. intros j Hj. unfold in_grid. lia.
  - apply run_from_four.
    replace (Z.max (col - 3) 0 + Z.of_nat (Z.to_nat (a - Z.max (col - 3) 0)) * 1)
      with a by lia.
    replace (row + Z.of_nat (Z.to_nat (a - Z.max (col - 3) 0)) * 0) with row by lia.
    exact Hfour.
Qed.

(** Four tokens of the last player on a diagonal through the last move
    are found by the diagonal scans when the two clamps of the start cell
    move it by the same amount, that is when the start cell is on the
    diagonal of the last move. *)
Lemma is_terminal_diagonal1 s row col p a b :
  wf s -> int_columns s ->
  last (history s) = Some (row, col, p) -> in_grid s row col ->
  four_in_line s a b 1 1 p -> 0 <= row - a <= 3 -> row - a = col - b ->
  row - Z.max (row - 3) 0 = col - Z.max (col - 3) 0 ->
  is_terminal s = Ok (Some p).
Proof.
  intros Hwf Hwi Hlast Hin Hfour Ha Hab Haligned.
  rewrite (is_terminal_last s row col p) by assumption.
  pose proof (int_columns_width s Hwi) as Hwi'.
  destruct unit_steps as (U0 & U1 & Um).
  destruct (start_cells s row col Hin) as (Hv & Hh & _).
  destruct (check_line_safe s 1 0 p Hwf Hwi' U1 U0 _ _ line_steps Hv) as [b1 ->].
  cbn [bind]. destruct b1; [reflexivity|].
  destruct (check_line_safe s 0 1 p Hwf Hwi' U0 U1 _ _ line_steps Hh) as [b2 ->].
  cbn [bind]. destruct b2; [reflexivity|].
  destruct (four_in_line_ends _ _ _ _ _ _ Hfour) as [[Ha0 Hb0] [Ha3 Hb3]].
  destruct Hin as [Hr Hc].
  rewrite (check_line_finds s 1 1 p Hwf Hwi' U1 U1 _ _
             (Z.to_nat (a - Z.max (row - 3) 0))); [reflexivity|lia| |].
  - apply path_in_cells. intros j Hj. unfold in_grid. lia.
  - apply run_from_four.
    replace (Z.max (row - 3) 0 + Z.of_nat (Z.to_nat (a - Z.max (row - 3) 0)) * 1)
      with a by lia.
    replace (Z.max (col - 3) 0 + Z.of_nat (Z.to_nat (a - Z.max (row - 3) 0)) * 1)
      with b by lia.
    exact Hfour.
Qed.

Lemma is_terminal_diagonal2 s row col p a b :
  wf s -> int_columns s ->
  last (history s) = Some (row, col, p) -> in_grid s row col ->
  four_in_line s a b 1 (-1) p -> 0 <= row - a <= 3 -> row - a = b - col ->
  row - Z.max (row - 3) 0 = Z.min (col + 3) (grid_width s - 1) - col ->
  is_terminal s = Ok (Some p).
Proof.
  intros Hwf Hwi Hlast Hin Hfour Ha Hab Haligned.
  rewrite (is_terminal_last s row col p) by assumption.
  pose proof (int_columns_width s Hwi) as Hwi'.
  destruct unit_steps as (U0 & U1 & Um).
  destruct (start_cells s row col Hin) as (Hv & Hh & Hd1 & _).
  destruct (check_line_safe s 1 0 p Hwf Hwi' U1 U0 _ _ line_steps Hv) as [b1 ->].
  cbn [bind]. destruct b1; [reflexivity|].
  destruct (check_line_safe s 0 1 p Hwf Hwi' U0 U1 _ _ line_steps Hh) as [b2 ->].
  cbn [bind]. destruct b2; [reflexivity|].
  destruct (check_line_safe s 1 1 p Hwf Hwi' U1 U1 _ _ line_steps Hd1) as [b3 ->].
  cbn [bind]. destruct b3; [reflexivity|].
  destruct (four_in_line_ends _ _ _ _ _ _ Hfour) as [[Ha0 Hb0] [Ha3 Hb3]].
  destruct Hin as [Hr Hc].
  rewrite (check_line_finds s 1 (-1) p Hwf Hwi' U1 Um _ _
             (Z.to_nat (a - Z.max (row - 3) 0))); [reflexivity|lia| |].
  - apply path_in_cells. intros j Hj. unfold in_grid. lia.
  - apply run_from_four.
    replace (Z.max (row - 3) 0 + Z.of_nat (Z.to_nat (a - Z.max (row - 3) 0)) * 1)
      with a by lia.
    replace (Z.min (col + 3) (grid_width s - 1)
             + Z.of_nat (Z.to_nat (a - Z.max (row - 3) 0)) * -1)
      with b by lia.
    exact Hfour.
Qed.

(** What a report of [is_terminal] means: the reported player is the
    player of the last move, and one of the four scanned lines holds four
    of its tokens within [line_steps] cells of the start of the scan. *)
Lemma is_terminal_some s row col p q :
  wf s -> int_columns s ->
  last (history s) = Some (row, col, p) -> in_grid s row col ->
  is_terminal s = Ok (Some q) ->
  q = p /\
  exists m : Z, 0 <= m <= 3 /\
    (four_in_line s (Z.max (row - 3) 0 + m) col 1 0 p \/
     four_in_line s row (Z.max (col - 3) 0 + m) 0 1 p \/
     four_in_line s (Z.max (row - 3) 0 + m) (Z.max (col - 3) 0 + m) 1 1 p \/
     four_in_line s (Z.max (row - 3) 0 + m)
                    (Z.min (col + 3) (grid_width s - 1) - m) 1 (-1) p).
Proof.
  intros Hwf Hwi Hlast Hin.
  rewrite (is_terminal_last s row col p) by assumption.
  pose proof (int_columns_width s Hwi) as Hwi'.
  destruct (start_cells s row col Hin) as (Hv & Hh & Hd1 & Hd2).
  destruct unit_steps as (U0 & U1 & Um).
  pose proof (check_line_true s 1 0 p Hwf Hwi' U1 U0 _ _ line_steps Hv) as T1.
  pose proof (check_line_true s 0 1 p Hwf Hwi' U0 U1 _ _ line_steps Hh) as T2.
  pose proof (check_line_true s 1 1 p Hwf Hwi' U1 U1 _ _ line_steps Hd1) as T3.
  pose proof (check_line_true s 1 (-1) p Hwf Hwi' U1 Um _ _ line_steps Hd2) as T4.
  change (Z.to_nat line_steps) with 7%nat in *.
  destruct (check_line s _ col 1 0 _ p) as [[|]| |]; cbn [bind]; [| |discriminate..].
  { intros [= <-]. split; [reflexivity|].
    destruct (T1 eq_refl) as (m & Hm & Hrun). apply run_from_four in Hrun.
    exists (Z.of_nat m). split; [lia|]. left.
    replace (col + Z.of_nat m * 0) with col in Hrun by lia.
    now rewrite Z.mul_1_r in Hrun. }
  destruct (check_line s row _ 0 1 _ p) as [[|]| |]; cbn [bind]; [| |discriminate..].
  { intros [= <-]. split; [reflexivity|].
    destruct (T2 eq_refl) as (m & Hm & Hrun). apply run_from_four in Hrun.
    exists (Z.of_nat m). split; [lia|]. right; left.
    replace (row + Z.of_nat m * 0) with row in Hrun by lia.
    now rewrite Z.mul_1_r in Hrun. }
  destruct (check_line s _ _ 1 1 _ p) as [[|]| |]; cbn [bind]; [| |discriminate..].
  { intros [= <-]. split; [reflexivity|].
    destruct (T3 eq_refl) as (m & Hm & Hrun). apply run_from_four in Hrun.
    exists (Z.of_nat m). split; [lia|]. right; right; left.
    now rewrite !Z.mul_1_r in Hrun. }
  destruct (check_line s _ _ 1 (-1) _ p) as [[|]| |]; cbn [bind]; [|discriminate..].
  intros [= <-]. split; [reflexivity|].
  destruct (T4 eq_refl) as (m & Hm & Hrun). apply run_from_four in Hrun.
  exists (Z.of_nat m). split; [lia|]. right; right; right.
  rewrite Z.mul_1_r in Hrun.
  now replace (Z.min (col + 3) (grid_width s - 1) + Z.of_nat m * -1)
    with (Z.min (col + 3) (grid_width s - 1) - Z.of_nat m) in Hrun by lia.
Qed.

(** * The properties of the specification *)

Lemma demo_state_wf : wf demo_state.
Proof.
  unfold wf, demo_state, SIZE_MAX, INT_MAX; simpl.
  repeat split; try lia. repeat constructor.
Qed.

(** ** Initialization *)

(** C3 (as the code has it). For a width of at most [max_size] (the
    longest row that the vector constructor builds) and a height of at
    most [INT_MAX] (the row loop counts with an [int]), allocations
    succeeding, [init_state] returns a state, rather than the
    invalid-dimensions error, exactly when [width > 0] and
    [height > 0]; the state returned has [height] rows of [width] cells,
    all equal to the empty marker, and an empty history; on failure the
    result is the error alone. *)
Theorem init_state_valid width height :
  0 <= width <= max_size -> 0 <= height <= INT_MAX ->
  ((exists s, init_state width height = Ok (Some s)) <-> 0 < width /\ 0 < height) /\
  (init_state width height = Ok None <-> ~ (0 < width /\ 0 < height)) /\
  (forall s, init_state width height = Ok (Some s) ->
     grid_width s = width /\ grid_height s = height /\
     history s = [] /\
     length (grid s) = Z.to_nat height /\
     (forall r, r ∈ grid s ->
        length r = Z.to_nat width /\ forall v, v ∈ r -> v = EMPTY_COLOR)).
Proof.
  intros Hw Hh.
  assert (forall s, init_state width height = Ok (Some s) ->
                    0 < width <= max_size /\ 0 < height <= INT_MAX) as Hdims.
  { intros s Hs. destruct (init_state_some width height s Hs) as [Hw0 Hh0].
    - unfold is_size_t, SIZE_MAX, INT_MAX in *. lia.
    - lia. }
  split; [|split].
  - split.
    + intros [s Hs]. destruct (Hdims s Hs). lia.
    + intros [Hw0 Hh0]. rewrite init_state_ok by lia. eauto.
  - rewrite init_state_zero. lia.
  - intros s Hs. destruct (Hdims s Hs) as [Hw0 Hh0].
    rewrite init_state_ok in Hs by assumption. injection Hs as <-.
    cbn [grid grid_width grid_height history]. unfold empty_grid.
    split; [reflexivity|]. split; [reflexivity|]. split; [reflexivity|].
    split; [apply length_replicate|].
    intros r Hr. apply elem_of_replicate in Hr as [-> _].
    split; [apply length_replicate|].
    intros v Hv. now apply elem_of_replicate in Hv as [-> _].
Qed.

Lemma init_state_valid_witness :
  0 <= 10 <= max_size /\ 0 <= 10 <= INT_MAX /\
  ((exists s, init_state 10 10 = Ok (Some s)) <-> 0 < 10 /\ 0 < 10) /\
  (init_state 10 10 = Ok None <-> ~ (0 < 10 /\ 0 < 10)) /\
  (forall s, init_state 10 10 = Ok (Some s) ->
     grid_width s = 10 /\ grid_height s = 10 /\
     history s = [] /\
     length (grid s) = Z.to_nat 10 /\
     (forall r, r ∈ grid s ->
        length r = Z.to_nat 10 /\ forall v, v ∈ r -> v = EMPTY_COLOR)).
Proof.
  assert (0 <= 10 <= max_size) as Hw by (unfold max_size; lia).
  assert (0 <= 10 <= INT_MAX) as Hh by (unfold INT_MAX; lia).
  split; [exact Hw|]. split; [exact Hh|].
  exact (init_state_valid 10 10 Hw Hh).
Defined.

(** C3, as stated, fails for a width above [max_size]: both dimensions
    are positive [size_t] values, and the constructor of the first row
    throws [std::length_error]; neither a state nor the
    invalid-dimensions error is returned. *)
Lemma init_state_long_row :
  is_size_t 1152921504606846976 /\ is_size_t 1 /\
  0 < 1152921504606846976 /\ 0 < 1 /\
  init_state 1152921504606846976 1 = Throw /\
  ~ (exists s, init_state 1152921504606846976 1 = Ok (Some s)) /\
  init_state 1152921504606846976 1 <> Ok None.
Proof.
  assert (init_state 1152921504606846976 1 = Throw) as H
    by (apply init_state_throw; unfold max_size; lia).
  split; [unfold is_size_t, SIZE_MAX; lia|].
  split; [unfold is_size_t, SIZE_MAX; lia|].
  split; [lia|]. split; [lia|]. split; [exact H|].
  split; [|rewrite H; discriminate].
  intros [s Hs]. rewrite H in Hs. discriminate.
Qed.

(** It fails as well for a height above [INT_MAX]: the increment of the
    loop counter overflows after row [INT_MAX], which is undefined. *)
Lemma init_state_tall :
  0 < 1 /\ 0 < 2147483648 /\
  init_state 1 2147483648 = UB /\
  ~ exists s, init_state 1 2147483648 = Ok (Some s).
Proof.
  assert (init_state 1 2147483648 = UB) as H
    by (apply init_state_overflow; unfold INT_MAX, max_size; lia).
  split; [lia|]. split; [lia|]. split; [exact H|].
  intros [s Hs]. rewrite H in Hs. discriminate.
Qed.

(** ** Turn application: errors *)

(** C4. On a well-formed state, [make_turn] returns the range error
    exactly when the column is outside [0, grid_width); for a column in
    range it returns the column-full error exactly when the column has no
    empty cell; and whenever an error is returned it is one of the two
    messages and grid and history are the ones before the call. *)
Theorem make_turn_errors s col p :
  wf s ->
  ((exists s', make_turn s col p = Ok (Some err_range, s')) <->
   ~ 0 <= col < grid_width s) /\
  (0 <= col < grid_width s ->
   ((exists s', make_turn s col p = Ok (Some err_full, s')) <-> column_full s col)) /\
  (forall e s', make_turn s col p = Ok (Some e, s') ->
     (e = err_range \/ e = err_full) /\
     grid s' = grid s /\ history s' = history s).
Proof.
  intros Hwf.
  destruct (make_turn_cases s col p Hwf)
    as [[Hc H]|[(Hc & Hf & H)|(Hc & row & g & Hl & Hg & H)]]; rewrite H.
  - split; [split; [intros _; exact Hc|eauto]|].
    split; [intros Hc'; contradiction|].
    intros e s' [= <- <-]. auto.
  - split; [split; [intros [s' [= Habs]]|intros Hc'; contradiction]|].
    split; [intros _; split; [intros _; exact Hf|eauto]|].
    intros e s' [= <- <-]. auto.
  - split; [split; [intros [s' [=]]|intros Hc'; contradiction]|].
    split; [intros _; split; [intros [s' [=]]|]|].
    + intros Hf. now apply lowest_empty_not_full in Hl.
    + intros e s' [=].
Qed.

Lemma make_turn_errors_witness :
  wf demo_state /\
  ((exists s', make_turn demo_state 0 1 = Ok (Some err_range, s')) <->
   ~ 0 <= 0 < grid_width demo_state) /\
  (0 <= 0 < grid_width demo_state ->
   ((exists s', make_turn demo_state 0 1 = Ok (Some err_full, s')) <->
    column_full demo_state 0)) /\
  (forall e s', make_turn demo_state 0 1 = Ok (Some e, s') ->
     (e = err_range \/ e = err_full) /\
     grid s' = grid demo_state /\ history s' = history demo_state).
Proof.
  split; [exact demo_state_wf|].
  apply (make_turn_errors demo_state 0 1 demo_state_wf).
Defined.

(** ** Gravity *)

(** The lowest empty cell is the empty cell of largest row index. *)
Lemma lowest_empty_largest s col row :
  wf s -> 0 <= col < grid_width s ->
  lowest_empty s col row <->
  (0 <= row < grid_height s /\
   get_cell (grid s) row col = Ok EMPTY_COLOR /\
   forall row', 0 <= row' < grid_height s ->
     get_cell (grid s) row' col = Ok EMPTY_COLOR -> row' <= row).
Proof.
  intros Hwf Hc. unfold lowest_empty. split.
  - intros (Hr & Hv & Hbelow). split; [exact Hr|]. split; [exact Hv|].
    intros row' Hr' Hv'.
    destruct (Z_le_gt_dec row' row) as [Hle|Hgt]; [exact Hle|].
    destruct (Hbelow row' ltac:(lia)) as (v & Hv'' & Hne). congruence.
  - intros (Hr & Hv & Hmax). split; [exact Hr|]. split; [exact Hv|].
    intros row' Hr'.
    destruct (get_cell_in_grid s row' col Hwf) as [v Hv']; [unfold in_grid; lia|].
    exists v. split; [exact Hv'|].
    intros ->. specialize (Hmax row' ltac:(lia) Hv'). lia.
Qed.

(** C5. On a well-formed state and for a column of the grid,
    [trace_row_coordinate] returns the largest row index whose cell in
    the column is empty, and returns nothing exactly when the column has
    no empty cell; a successful [make_turn] writes the cell of that row,
    below which every cell of the column is occupied, and no other. *)
Theorem gravity s col :
  wf s -> 0 <= col < grid_width s ->
  (forall row,
     trace_row_coordinate s col = Ok (Some row) <->
     (0 <= row < grid_height s /\
      get_cell (grid s) row col = Ok EMPTY_COLOR /\
      forall row', 0 <= row' < grid_height s ->
        get_cell (grid s) row' col = Ok EMPTY_COLOR -> row' <= row)) /\
  (trace_row_coordinate s col = Ok None <-> column_full s col) /\
  (forall p s', make_turn s col p = Ok (None, s') ->
     exists row,
       trace_row_coordinate s col = Ok (Some row) /\
       lowest_empty s col row /\
       get_cell (grid s') row col = Ok p /\
       forall row' col', in_grid s row' col' -> (row', col') <> (row, col) ->
         get_cell (grid s') row' col' = get_cell (grid s) row' col').
Proof.
  intros Hwf Hc. split; [|split].
  - intros row. rewrite trace_row_coordinate_some by assumption.
    now apply lowest_empty_largest.
  - now apply trace_row_coordinate_none.
  - intros p s' Hm.
    destruct (make_turn_cases s col p Hwf)
      as [[_ H]|[(_ & _ & H)|(_ & row & g & Hl & Hg & H)]];
      rewrite H in Hm; [discriminate..|].
    injection Hm as <-. exists row.
    split; [now apply trace_row_coordinate_some|]. split; [exact Hl|].
    cbn [placed grid]. split; [now apply get_set_same with (g := grid s)|].
    intros row' col' [Hr' Hc'] Hne.
    pose proof Hwf as (Hw & Hh & _). destruct Hl as (Hr & _).
    unfold INT_MAX, SIZE_MAX in *.
    apply (get_set_other (grid s) row col p); trivial;
      unfold is_size_t, SIZE_MAX; lia.
Qed.

Lemma gravity_witness :
  wf demo_state /\ 0 <= 1 < grid_width demo_state /\
  (forall row,
     trace_row_coordinate demo_state 1 = Ok (Some row) <->
     (0 <= row < grid_height demo_state /\
      get_cell (grid demo_state) row 1 = Ok EMPTY_COLOR /\
      forall row', 0 <= row' < grid_height demo_state ->
        get_cell (grid demo_state) row' 1 = Ok EMPTY_COLOR -> row' <= row)) /\
  (trace_row_coordinate demo_state 1 = Ok None <-> column_full demo_state 1) /\
  (forall p s', make_turn demo_state 1 p = Ok (None, s') ->
     exists row,
       trace_row_coordinate demo_state 1 = Ok (Some row) /\
       lowest_empty demo_state 1 row /\
       get_cell (grid s') row 1 = Ok p /\
       forall row' col', in_grid demo_state row' col' -> (row', col') <> (row, 1) ->
         get_cell (grid s') row' col' = get_cell (grid demo_state) row' col').
Proof.
  assert (0 <= 1 < grid_width demo_state) as Hc by (simpl; lia).
  split; [exact demo_state_wf|]. split; [exact Hc|].
  exact (gravity demo_state 1 demo_state_wf Hc).
Defined.

(** ** Turn application: frame *)

Lemma lowest_empty_row_int s col row :
  wf s -> lowest_empty s col row -> to_int row = row.
Proof.
  intros (_ & Hh & _) (Hr & _). unfold INT_MAX in Hh.
  apply to_int_id. unfold is_int, INT_MIN, INT_MAX. lia.
Qed.

(** C6 (as the code has it). On a well-formed state, a successful
    [make_turn] sets the landing cell [(row, col)] to the player id,
    leaves every other cell unchanged, and appends exactly one entry to
    the history, leaving the earlier entries unchanged: the entry is
    [(row, int(col), player_id)], which is [(row, col, player_id)] when
    [col <= INT_MAX]; the length of the history grows by one.  A failed
    call leaves the length of the history unchanged. *)
Theorem make_turn_frame s col p r s' :
  wf s -> make_turn s col p = Ok (r, s') ->
  match r with
  | None =>
      exists row,
        lowest_empty s col row /\
        get_cell (grid s') row col = Ok p /\
        (forall row' col', in_grid s row' col' -> (row', col') <> (row, col) ->
           get_cell (grid s') row' col' = get_cell (grid s) row' col') /\
        history s' = history s ++ [(row, to_int col, p)] /\
        (col <= INT_MAX -> history s' = history s ++ [(row, col, p)]) /\
        length (history s') = S (length (history s))
  | Some _ => length (history s') = length (history s)
  end.
Proof.
  intros Hwf Hm.
  destruct (make_turn_cases s col p Hwf)
    as [[_ H]|[(_ & _ & H)|(Hc & row & g & Hl & Hg & H)]];
    rewrite H in Hm; injection Hm as <- <-; [reflexivity..|].
  exists row. cbn [placed grid history].
  rewrite (lowest_empty_row_int s col row Hwf Hl).
  split; [exact Hl|]. split; [now apply get_set_same with (g := grid s)|].
  split; [|split; [reflexivity|split]].
  - intros row' col' [Hr' Hc'] Hne.
    pose proof Hwf as (Hw & Hh & _). destruct Hl as (Hr & _).
    unfold INT_MAX, SIZE_MAX in *.
    apply (get_set_other (grid s) row col p); trivial;
      unfold is_size_t, SIZE_MAX; lia.
  - intros Hci. rewrite (to_int_id col); [reflexivity|].
    unfold is_int, INT_MIN, INT_MAX in *. lia.
  - rewrite length_app. simpl. lia.
Qed.

Lemma make_turn_frame_witness :
  wf demo_state /\
  make_turn demo_state 1 2
  = Ok (None, {| grid := [[1; 0; 0]; [2; 2; 0]]; grid_width := 3; grid_height := 2;
                 history := [(1, 0, 2); (0, 0, 1); (1, 1, 2)] |}) /\
  exists row,
    lowest_empty demo_state 1 row /\
    get_cell [[1; 0; 0]; [2; 2; 0]] row 1 = Ok 2 /\
    (forall row' col', in_grid demo_state row' col' -> (row', col') <> (row, 1) ->
       get_cell [[1; 0; 0]; [2; 2; 0]] row' col' = get_cell (grid demo_state) row' col') /\
    [(1, 0, 2); (0, 0, 1); (1, 1, 2)] = history demo_state ++ [(row, to_int 1, 2)] /\
    (1 <= INT_MAX ->
     [(1, 0, 2); (0, 0, 1); (1, 1, 2)] = history demo_state ++ [(row, 1, 2)]) /\
    length [(1, 0, 2); (0, 0, 1); (1, 1, 2)] = S (length (history demo_state)).
Proof.
  split; [exact demo_state_wf|]. split; [reflexivity|].
  exact (make_turn_frame demo_state 1 2 None _ demo_state_wf eq_refl).
Defined.

Lemma wide_state_init : init_state 2147483649 1 = Ok (Some wide_state).
Proof. apply init_state_ok; unfold INT_MAX, max_size; lia. Qed.

Lemma wide_state_wf : wf wide_state.
Proof. apply empty_grid_wf; unfold SIZE_MAX, INT_MAX; lia. Qed.

Lemma wide_state_lowest : lowest_empty wide_state 2147483648 0.
Proof.
  unfold lowest_empty, wide_state. cbn [grid grid_height].
  split; [lia|]. split; [|intros row' Hr; lia].
  apply empty_grid_cell; unfold SIZE_MAX; lia.
Qed.

Lemma wide_state_reachable : reachable wide_state.
Proof.
  apply (reachable_init 2147483649 1); [| |exact wide_state_init];
    unfold is_size_t, SIZE_MAX; lia.
Qed.

(** C6, as stated, fails on the last column of [wide_state]: the entry
    appended by the successful move holds the column narrowed to [int],
    not the column. *)
Lemma make_turn_wide_entry :
  wf wide_state /\
  exists s', make_turn wide_state 2147483648 1 = Ok (None, s') /\
             history s' = [(0, -2147483648, 1)] /\
             history s' <> history wide_state ++ [(0, 2147483648, 1)].
Proof.
  split; [exact wide_state_wf|].
  destruct (make_turn_place wide_state 2147483648 1 0 wide_state_wf)
    as (g & Hg & Hm).
  { cbn [wide_state grid_width]. lia. }
  { exact wide_state_lowest. }
  eexists. split; [exact Hm|].
  cbn [placed history wide_state app].
  change (to_int 0) with 0. change (to_int 2147483648) with (-2147483648).
  split; [reflexivity|discriminate].
Qed.

(** ** Turns of the empty marker *)

Lemma set_cell_same g row col v :
  get_cell g row col = Ok v -> set_cell g row col v = Ok g.
Proof.
  unfold get_cell, set_cell. intros H.
  destruct (g !! Z.to_nat (to_size_t row)) as [r|] eqn:Er; [|discriminate].
  destruct (r !! Z.to_nat (to_size_t col)) as [x|] eqn:Ec; [|discriminate].
  injection H as ->.
  rewrite (list_insert_id r _ v Ec). now rewrite (list_insert_id g _ r Er).
Qed.

Lemma not_full_lowest s col :
  wf s -> 0 <= col < grid_width s -> ~ column_full s col ->
  exists row, lowest_empty s col row.
Proof.
  intros Hwf Hc Hnf.
  destruct (trace_row_coordinate_spec s col Hwf Hc) as [(row & _ & Hl)|[_ Hf]];
    [eauto|contradiction].
Qed.

Lemma make_turn_empty_color s col row :
  wf s -> 0 <= col < grid_width s -> lowest_empty s col row ->
  make_turn s col EMPTY_COLOR = Ok (None, marked s row col).
Proof.
  intros Hwf Hc Hl.
  destruct (make_turn_place s col EMPTY_COLOR row Hwf Hc Hl) as (g & Hg & ->).
  pose proof (lowest_empty_row_int s col row Hwf Hl) as Hi.
  destruct Hl as (_ & Hv & _).
  rewrite (set_cell_same _ _ _ _ Hv) in Hg. injection Hg as <-.
  unfold placed, marked. now rewrite Hi.
Qed.

Lemma marked_wf s row col : wf s -> wf (marked s row col).
Proof. unfold wf, marked. simpl. trivial. Qed.

Lemma marked_lowest s row col col' row' :
  lowest_empty s col' row' -> lowest_empty (marked s row col) col' row'.
Proof. unfold lowest_empty, marked. simpl. trivial. Qed.

(** Any number of moves of the empty marker in a column that is not full
    succeed, one after the other, on the same cell. *)
Lemma play_empty_color col row n : forall s,
  wf s -> 0 <= col < grid_width s -> lowest_empty s col row ->
  exists sn,
    play s (replicate n (col, EMPTY_COLOR)) = Ok (None, sn) /\
    grid sn = grid s /\
    length (history sn) = (length (history s) + n)%nat.
Proof.
  induction n as [|n IH]; intros s Hwf Hc Hl; cbn [replicate play].
  - exists s. split; [reflexivity|]. split; [reflexivity|lia].
  - rewrite (make_turn_empty_color s col row) by assumption. cbn [bind].
    destruct (IH (marked s row col)) as (sn & Hp & Hg & Hlen).
    + now apply marked_wf.
    + exact Hc.
    + now apply marked_lowest.
    + exists sn. split; [exact Hp|]. split; [exact Hg|].
      rewrite Hlen. unfold marked; cbn [history]. rewrite length_app. simpl. lia.
Qed.

(** C9 (as the code has it). [make_turn] accepts the empty marker as a
    player id: on a well-formed state and a column of the grid that is
    not full, the move succeeds, leaves the grid unchanged (the landing
    cell is written with the empty marker it already holds) and appends
    [(row, int(col), 0)] to the history, which is [(row, col, 0)] when
    [col <= INT_MAX]; the landing cell is again the landing cell of the
    next move, and any number of such moves succeed in the column. *)
Theorem empty_color_turn s col :
  wf s -> 0 <= col < grid_width s -> ~ column_full s col ->
  exists row s',
    lowest_empty s col row /\
    make_turn s col EMPTY_COLOR = Ok (None, s') /\
    grid s' = grid s /\
    history s' = history s ++ [(row, to_int col, EMPTY_COLOR)] /\
    (col <= INT_MAX -> history s' = history s ++ [(row, col, EMPTY_COLOR)]) /\
    trace_row_coordinate s' col = Ok (Some row) /\
    forall n : nat, exists sn,
      play s (replicate n (col, EMPTY_COLOR)) = Ok (None, sn) /\
      grid sn = grid s /\
      length (history sn) = (length (history s) + n)%nat.
Proof.
  intros Hwf Hc Hnf.
  destruct (not_full_lowest s col Hwf Hc Hnf) as [row Hl].
  exists row, (marked s row col).
  split; [exact Hl|]. split; [now apply make_turn_empty_color|].
  split; [reflexivity|]. split; [reflexivity|]. split; [|split].
  - intros Hci. unfold marked; cbn [history].
    rewrite (to_int_id col); [reflexivity|].
    unfold is_int, INT_MIN, INT_MAX in *. lia.
  - apply trace_row_coordinate_some; [now apply marked_wf|exact Hc|].
    now apply marked_lowest.
  - intros n. now apply (play_empty_color col row).
Qed.

Lemma demo_state_not_full : ~ column_full demo_state 1.
Proof.
  intros Hf. destruct (Hf 1) as (v & Hv & Hne); [simpl; lia|].
  injection Hv as <-. now apply Hne.
Qed.

Lemma empty_color_turn_witness :
  wf demo_state /\ 0 <= 1 < grid_width demo_state /\ ~ column_full demo_state 1 /\
  exists row s',
    lowest_empty demo_state 1 row /\
    make_turn demo_state 1 EMPTY_COLOR = Ok (None, s') /\
    grid s' = grid demo_state /\
    history s' = history demo_state ++ [(row, to_int 1, EMPTY_COLOR)] /\
    (1 <= INT_MAX -> history s' = history demo_state ++ [(row, 1, EMPTY_COLOR)]) /\
    trace_row_coordinate s' 1 = Ok (Some row) /\
    forall n : nat, exists sn,
      play demo_state (replicate n (1, EMPTY_COLOR)) = Ok (None, sn) /\
      grid sn = grid demo_state /\
      length (history sn) = (length (history demo_state) + n)%nat.
Proof.
  assert (0 <= 1 < grid_width demo_state) as Hc by (simpl; lia).
  split; [exact demo_state_wf|]. split; [exact Hc|].
  split; [exact demo_state_not_full|].
  exact (empty_color_turn demo_state 1 demo_state_wf Hc demo_state_not_full).
Defined.

(** C9, as stated, fails on the last column of [wide_state]: the move of
    the empty marker succeeds, and the entry appended holds the column
    narrowed to [int]. *)
Lemma empty_color_wide_entry :
  wf wide_state /\ 0 <= 2147483648 < grid_width wide_state /\
  ~ column_full wide_state 2147483648 /\
  exists s', make_turn wide_state 2147483648 EMPTY_COLOR = Ok (None, s') /\
             history s' = [(0, -2147483648, EMPTY_COLOR)] /\
             history s' <> history wide_state ++ [(0, 2147483648, EMPTY_COLOR)].
Proof.
  assert (0 <= 2147483648 < grid_width wide_state) as Hc
    by (cbn [wide_state grid_width]; lia).
  split; [exact wide_state_wf|]. split; [exact Hc|].
  split; [exact (lowest_empty_not_full _ _ _ wide_state_lowest)|].
  exists (marked wide_state 0 2147483648).
  split; [exact (make_turn_empty_color _ _ _ wide_state_wf Hc wide_state_lowest)|].
  cbn [marked history wide_state app].
  change (to_int 2147483648) with (-2147483648).
  split; [reflexivity|discriminate].
Qed.

(** ** Bounds of the grid accesses of [is_terminal] *)

(** C7 (as the code has it). On a well-formed state of [int] columns
    ([grid_width <= 2^31 - 3]) whose last history entry is a cell of the
    grid, [is_terminal] returns: none of its grid accesses is outside
    [0, grid_height) x [0, grid_width) (such an access is undefined), and
    a scan returns [false] as soon as its cursor leaves the grid. *)
Theorem is_terminal_in_bounds s row col p :
  wf s -> int_columns s ->
  last (history s) = Some (row, col, p) -> in_grid s row col ->
  (forall r c, is_int r -> is_int c -> ~ in_grid s r c -> get_cell (grid s) r c = UB) /\
  (exists r, is_terminal s = Ok r) /\
  (forall r c dr dc q, unit_step dr -> unit_step dc -> in_grid s r c ->
     exists b, check_line s r c dr dc line_steps q = Ok b) /\
  (forall n cnt r c dr dc q v, unit_step dr -> unit_step dc ->
     in_grid s r c -> get_cell (grid s) r c = Ok v ->
     (if v =? q then cnt + 1 else 0) <> line_len ->
     ~ in_grid s (r + dr) (c + dc) ->
     check_line_loop s (S n) cnt r c dr dc q = Ok false).
Proof.
  intros Hwf Hwi Hlast Hin.
  pose proof (int_columns_width s Hwi) as Hwi'.
  split; [|split; [|split]].
  - intros r c Hr Hc Hout. now apply get_cell_outside.
  - now apply (is_terminal_safe s row col p).
  - intros r c dr dc q Hdr Hdc Hin'. now apply check_line_safe.
  - intros n cnt r c dr dc q v Hdr Hdc Hin' Hv Hcnt Hout.
    now apply (check_line_loop_exit s n cnt r c dr dc q v).
Qed.

Lemma demo_state_int_columns : int_columns demo_state.
Proof. unfold int_columns, INT_MAX, line_offset, line_len. simpl. lia. Qed.

Lemma demo_state_last_in_grid : in_grid demo_state 0 0.
Proof. unfold in_grid. simpl. lia. Qed.

Lemma is_terminal_in_bounds_witness :
  wf demo_state /\ int_columns demo_state /\
  last (history demo_state) = Some (0, 0, 1) /\ in_grid demo_state 0 0 /\
  exists r, is_terminal demo_state = Ok r.
Proof.
  split; [exact demo_state_wf|]. split; [exact demo_state_int_columns|].
  split; [reflexivity|]. split; [exact demo_state_last_in_grid|].
  exact (proj1 (proj2 (is_terminal_in_bounds demo_state 0 0 1 demo_state_wf
                         demo_state_int_columns eq_refl demo_state_last_in_grid))).
Defined.

Lemma edge_state_wf : wf edge_state.
Proof.
  unfold wf, edge_state, SIZE_MAX, INT_MAX. cbn [grid grid_width grid_height].
  split; [lia|]. split; [lia|]. split; [reflexivity|].
  apply Forall_singleton. rewrite length_app, length_replicate. cbn [length]. lia.
Qed.

Lemma edge_state_in_grid : in_grid edge_state 0 2147483645.
Proof. unfold in_grid, edge_state. cbn [grid_width grid_height]. lia. Qed.

Lemma edge_state_width : grid_width edge_state <= INT_MAX.
Proof. unfold edge_state, INT_MAX. cbn [grid_width]. lia. Qed.

Lemma edge_state_empty col :
  0 <= col < 2147483645 -> get_cell (grid edge_state) 0 col = Ok EMPTY_COLOR.
Proof.
  intros Hc. unfold get_cell, edge_state. cbn [grid].
  rewrite !to_size_t_id by (unfold is_size_t, SIZE_MAX; lia).
  change (Z.to_nat 0) with 0%nat. cbn [lookup list_lookup].
  rewrite lookup_app_l by (rewrite length_replicate; lia).
  rewrite lookup_replicate_2 by lia. reflexivity.
Qed.

Lemma edge_row_insert :
  <[Z.to_nat 2147483645 := (1 : ColorType)]>
    (replicate (Z.to_nat 2147483646) EMPTY_COLOR)
  = replicate (Z.to_nat 2147483645) EMPTY_COLOR ++ [1].
Proof.
  replace (Z.to_nat 2147483646) with (S (Z.to_nat 2147483645)) by lia.
  rewrite replicate_S_end.
  rewrite insert_app_r_alt by (rewrite length_replicate; lia).
  rewrite length_replicate, Nat.sub_diag. reflexivity.
Qed.

Lemma edge_state_set_cell :
  set_cell (empty_grid 2147483646 1) 0 2147483645 1 = Ok (grid edge_state).
Proof.
  unfold set_cell, empty_grid.
  rewrite !to_size_t_id by (unfold is_size_t, SIZE_MAX; lia).
  rewrite lookup_replicate_2 by lia.
  rewrite lookup_replicate_2 by lia.
  rewrite edge_row_insert.
  change (Z.to_nat 1) with 1%nat. change (Z.to_nat 0) with 0%nat.
  reflexivity.
Qed.

Lemma edge_state_reachable : reachable edge_state.
Proof.
  apply (reachable_turn
           {| grid := empty_grid 2147483646 1; grid_width := 2147483646;
              grid_height := 1; history := [] |} 2147483645 1 None).
  - apply (reachable_init 2147483646 1);
      [unfold is_size_t, SIZE_MAX; lia..|].
    apply init_state_ok; unfold INT_MAX, max_size; lia.
  - rewrite make_turn_inside by (cbn [grid_width]; lia).
    rewrite (proj2 (trace_row_coordinate_some _ 2147483645 0
               (empty_grid_wf 2147483646 1 ltac:(unfold SIZE_MAX; lia)
                  ltac:(unfold INT_MAX; lia))
               ltac:(cbn [grid_width]; lia))).
    + cbn [bind grid]. rewrite edge_state_set_cell. reflexivity.
    + unfold lowest_empty. cbn [grid grid_height].
      split; [lia|]. split; [|intros row' Hr; lia].
      apply empty_grid_cell; unfold SIZE_MAX; lia.
Qed.

(** On [edge_state] the first three scans find nothing. *)
Lemma edge_state_scan row col dr dc :
  unit_step dr -> unit_step dc -> in_grid edge_state row col ->
  dr = 1 \/ (dr = 0 /\ dc = 1 /\ col = 2147483642) ->
  check_line edge_state row col dr dc line_steps 1 = Ok false.
Proof.
  intros Hdr Hdc Hin Hdir.
  destruct (check_line_safe edge_state dr dc 1 edge_state_wf edge_state_width
              Hdr Hdc row col line_steps Hin) as [b Hb].
  destruct b; [exfalso|exact Hb].
  apply check_line_true in Hb;
    [|exact edge_state_wf|exact edge_state_width|assumption..].
  destruct Hb as (m & Hm & Hrun). apply run_from_four in Hrun.
  destruct Hin as [Hr Hc]. cbn [edge_state grid_height grid_width] in Hr, Hc.
  destruct Hdir as [->|(-> & -> & ->)].
  - destruct (Hrun 1) as [[Hr' _] _]; [unfold line_len; lia|].
    cbn [edge_state grid_height] in Hr'. lia.
  - destruct (Hrun 3) as [[_ Hc'] _]; [unfold line_len; lia|].
    cbn [edge_state grid_width] in Hc'.
    destruct (Hrun 0) as [_ Hv]; [unfold line_len; lia|].
    replace (row + Z.of_nat m * 0 + 0 * 0) with 0 in Hv by lia.
    replace (2147483642 + Z.of_nat m * 1 + 0 * 1) with 2147483642 in Hv by lia.
    rewrite edge_state_empty in Hv by lia. discriminate.
Qed.

(** When the first three scans find nothing, the answer of
    [is_terminal] is the answer of the fourth. *)
Lemma is_terminal_fourth s row col p :
  last (history s) = Some (row, col, p) ->
  check_line s (Z.max (back_off row) 0) col 1 0 line_steps p = Ok false ->
  check_line s row (Z.max (back_off col) 0) 0 1 line_steps p = Ok false ->
  check_line s (Z.max (back_off row) 0) (Z.max (back_off col) 0) 1 1 line_steps p
  = Ok false ->
  is_terminal s
  = do d2 <- check_line s (Z.max (back_off row) 0)
               (Z.min (forward_off col) (to_int (to_size_t (grid_width s - 1))))
               1 (-1) line_steps p;
    if d2 then Ok (Some p) else Ok None.
Proof.
  intros Hlast H1 H2 H3. unfold is_terminal. rewrite Hlast. cbv zeta.
  rewrite H1. cbn [bind]. rewrite H2. cbn [bind]. rewrite H3. reflexivity.
Qed.

Lemma check_line_outside s row col dr dc steps p :
  wf s -> grid_width s <= INT_MAX ->
  is_int row -> is_int col -> 0 < steps -> ~ in_grid s row col ->
  check_line s row col dr dc steps p = UB.
Proof.
  intros Hwf Hwi Hr Hc Hsteps Hout. unfold check_line.
  destruct (Z.to_nat steps) as [|n] eqn:E; [lia|].
  now apply check_line_loop_outside.
Qed.

(** The start column of the fourth scan on [edge_state]. *)
Lemma edge_state_fourth_start :
  Z.max (back_off 0) 0 = 0 /\
  Z.min (forward_off 2147483645) (to_int (to_size_t (grid_width edge_state - 1)))
  = -2147483648.
Proof. split; reflexivity. Qed.

Lemma edge_state_fourth_scan :
  check_line edge_state (Z.max (back_off 0) 0)
    (Z.min (forward_off 2147483645) (to_int (to_size_t (grid_width edge_state - 1))))
    1 (-1) line_steps 1 = UB.
Proof.
  destruct edge_state_fourth_start as [-> ->].
  apply check_line_outside.
  - exact edge_state_wf.
  - exact edge_state_width.
  - unfold is_int, INT_MIN, INT_MAX. lia.
  - unfold is_int, INT_MIN, INT_MAX. lia.
  - unfold line_steps, line_len. lia.
  - unfold in_grid. lia.
Qed.

(** C7, as stated, fails on [edge_state]: the last history entry is a
    cell of the grid, and the fourth scan of [is_terminal] starts at
    column [int(2147483645 + 3) = -2^31], outside the grid. *)
Lemma is_terminal_edge :
  wf edge_state /\
  last (history edge_state) = Some (0, 2147483645, 1) /\
  in_grid edge_state 0 2147483645 /\
  is_terminal edge_state = UB.
Proof.
  split; [exact edge_state_wf|]. split; [reflexivity|].
  split; [exact edge_state_in_grid|].
  destruct unit_steps as (U0 & U1 & Um).
  rewrite (is_terminal_fourth edge_state 0 2147483645 1 eq_refl).
  - now rewrite edge_state_fourth_scan.
  - apply (edge_state_scan 0 2147483645 1 0 U1 U0 edge_state_in_grid). auto.
  - apply (edge_state_scan 0 2147483642 0 1 U0 U1); [|auto].
    unfold in_grid; cbn [edge_state grid_height grid_width]; lia.
  - apply (edge_state_scan 0 2147483642 1 1 U1 U1); [|auto].
    unfold in_grid; cbn [edge_state grid_height grid_width]; lia.
Qed.

(** ** The precondition of [check_line] *)

(** The start coordinates computed by [is_terminal] for a last move on a
    cell of the grid. *)
Lemma start_coordinates s row col :
  wf s -> int_columns s -> in_grid s row col ->
  Z.max (back_off row) 0 = Z.max (row - 3) 0 /\
  Z.max (back_off col) 0 = Z.max (col - 3) 0 /\
  Z.min (forward_off col) (to_int (to_size_t (grid_width s - 1)))
  = Z.min (col + 3) (grid_width s - 1).
Proof.
  intros (Hw & Hh & _) Hwi [Hr Hc].
  unfold int_columns, line_offset, line_len, INT_MAX, SIZE_MAX in *.
  rewrite !back_off_small by (unfold INT_MAX; lia).
  rewrite forward_off_small by (unfold INT_MAX; lia).
  rewrite to_size_t_id by (unfold is_size_t, SIZE_MAX; lia).
  rewrite to_int_id by (unfold is_int, INT_MIN, INT_MAX; lia).
  auto.
Qed.

(** C10 (as the code has it). [check_line] reads its start cell before
    any bound test: started outside the grid it is undefined.  On a
    well-formed state of [int] columns ([grid_width <= 2^31 - 3]) whose
    last history entry is a cell of the grid, the start coordinates of
    the four scans of [is_terminal], clamped with max and min, are cells
    of the grid, and the four scans return. *)
Theorem check_line_precondition s row col p :
  wf s -> int_columns s ->
  last (history s) = Some (row, col, p) -> in_grid s row col ->
  (forall r c dr dc steps q,
     is_int r -> is_int c -> 0 < steps -> ~ in_grid s r c ->
     check_line s r c dr dc steps q = UB) /\
  let start_row := Z.max (back_off row) 0 in
  let start_col := Z.max (back_off col) 0 in
  let d2_start_col :=
    Z.min (forward_off col) (to_int (to_size_t (grid_width s - 1))) in
  (in_grid s start_row col /\
   in_grid s row start_col /\
   in_grid s start_row start_col /\
   in_grid s start_row d2_start_col) /\
  (exists v h d1 d2,
     check_line s start_row col 1 0 line_steps p = Ok v /\
     check_line s row start_col 0 1 line_steps p = Ok h /\
     check_line s start_row start_col 1 1 line_steps p = Ok d1 /\
     check_line s start_row d2_start_col 1 (-1) line_steps p = Ok d2).
Proof.
  intros Hwf Hwi Hlast Hin.
  pose proof (int_columns_width s Hwi) as Hwi'.
  split.
  { intros r c dr dc steps q Hr Hc Hsteps Hout. now apply check_line_outside. }
  cbv zeta.
  destruct (start_coordinates s row col Hwf Hwi Hin) as (-> & -> & ->).
  destruct (start_cells s row col Hin) as (Hv & Hh & Hd1 & Hd2).
  split; [auto|].
  destruct unit_steps as (U0 & U1 & Um).
  destruct (check_line_safe s 1 0 p Hwf Hwi' U1 U0 _ _ line_steps Hv) as [b1 H1].
  destruct (check_line_safe s 0 1 p Hwf Hwi' U0 U1 _ _ line_steps Hh) as [b2 H2].
  destruct (check_line_safe s 1 1 p Hwf Hwi' U1 U1 _ _ line_steps Hd1) as [b3 H3].
  destruct (check_line_safe s 1 (-1) p Hwf Hwi' U1 Um _ _ line_steps Hd2) as [b4 H4].
  exists b1, b2, b3, b4. auto.
Qed.

Lemma check_line_precondition_witness :
  wf demo_state /\ int_columns demo_state /\
  last (history demo_state) = Some (0, 0, 1) /\ in_grid demo_state 0 0 /\
  (in_grid demo_state (Z.max (back_off 0) 0) 0 /\
   in_grid demo_state 0 (Z.max (back_off 0) 0) /\
   in_grid demo_state (Z.max (back_off 0) 0) (Z.max (back_off 0) 0) /\
   in_grid demo_state (Z.max (back_off 0) 0)
     (Z.min (forward_off 0) (to_int (to_size_t (grid_width demo_state - 1))))).
Proof.
  split; [exact demo_state_wf|]. split; [exact demo_state_int_columns|].
  split; [reflexivity|]. split; [exact demo_state_last_in_grid|].
  exact (proj1 (proj2 (check_line_precondition demo_state 0 0 1 demo_state_wf
                         demo_state_int_columns eq_refl demo_state_last_in_grid))).
Defined.

(** C10, as stated, fails on [edge_state]: the last history entry is a
    cell of the grid, and the clamped start of the fourth scan is not. *)
Lemma fourth_start_edge :
  wf edge_state /\
  last (history edge_state) = Some (0, 2147483645, 1) /\
  in_grid edge_state 0 2147483645 /\
  ~ in_grid edge_state (Z.max (back_off 0) 0)
      (Z.min (forward_off 2147483645)
             (to_int (to_size_t (grid_width edge_state - 1)))) /\
  check_line edge_state (Z.max (back_off 0) 0)
    (Z.min (forward_off 2147483645) (to_int (to_size_t (grid_width edge_state - 1))))
    1 (-1) line_steps 1 = UB.
Proof.
  split; [exact edge_state_wf|]. split; [reflexivity|].
  split; [exact edge_state_in_grid|].
  split; [|exact edge_state_fourth_scan].
  destruct edge_state_fourth_start as [-> ->]. unfold in_grid. lia.
Qed.

(** ** The length of the history *)

Lemma count_empty_row_replicate n :
  count_empty_row (replicate n EMPTY_COLOR) = n.
Proof. induction n as [|n IH]; simpl; [reflexivity|now rewrite IH]. Qed.

Lemma count_empty_replicate n r :
  count_empty (replicate n r) = (n * count_empty_row r)%nat.
Proof. induction n as [|n IH]; simpl; [reflexivity|now rewrite IH]. Qed.

Lemma count_empty_row_insert r : forall i p,
  r !! i = Some EMPTY_COLOR -> p <> EMPTY_COLOR ->
  S (count_empty_row (<[i := p]> r)) = count_empty_row r.
Proof.
  induction r as [|v r IH]; intros i p Hi Hp; [discriminate|].
  destruct i as [|i]; simpl in *.
  - injection Hi as ->. destruct (Z.eqb_spec p EMPTY_COLOR); [contradiction|].
    reflexivity.
  - rewrite <- (IH i p Hi Hp). lia.
Qed.

Lemma count_empty_insert g : forall i r r',
  g !! i = Some r ->
  (count_empty (<[i := r']> g) + count_empty_row r
   = count_empty g + count_empty_row r')%nat.
Proof.
  induction g as [|x g IH]; intros i r r' Hi; [discriminate|].
  destruct i as [|i]; simpl in *.
  - injection Hi as ->. lia.
  - specialize (IH i r r' Hi). lia.
Qed.

(** Writing a player id on an empty cell removes one empty cell. *)
Lemma count_empty_set_cell g row col p g' :
  get_cell g row col = Ok EMPTY_COLOR -> p <> EMPTY_COLOR ->
  set_cell g row col p = Ok g' ->
  S (count_empty g') = count_empty g.
Proof.
  unfold get_cell, set_cell. intros Hv Hp Hg.
  destruct (g !! Z.to_nat (to_size_t row)) as [r|] eqn:Er; [|discriminate].
  destruct (r !! Z.to_nat (to_size_t col)) as [x|] eqn:Ec; [|discriminate].
  injection Hv as ->. injection Hg as <-.
  pose proof (count_empty_insert g _ r (<[Z.to_nat (to_size_t col) := p]> r) Er) as H1.
  pose proof (count_empty_row_insert r _ p Ec Hp) as H2. lia.
Qed.

Lemma history_inv_init width height s :
  is_size_t width -> is_size_t height ->
  init_state width height = Ok (Some s) ->
  history_inv s /\ grid_width s = width /\ grid_height s = height /\ history s = [].
Proof.
  intros Hw Hh Hs.
  destruct (init_state_some width height s Hs Hh) as [Hw0 Hh0].
  assert (0 < width <= max_size) as Hw1
    by (pose proof (init_state_some_width width height s Hs Hh);
        unfold is_size_t in Hw; lia).
  rewrite init_state_ok in Hs by assumption.
  injection Hs as <-.
  split; [|auto]. split.
  - apply empty_grid_wf; unfold is_size_t in *; lia.
  - cbn [grid grid_width grid_height history length]. unfold empty_grid.
    rewrite count_empty_replicate, count_empty_row_replicate. lia.
Qed.

Lemma history_inv_make_turn s col p r s' :
  p <> EMPTY_COLOR -> history_inv s -> make_turn s col p = Ok (r, s') ->
  history_inv s' /\ grid_width s' = grid_width s /\ grid_height s' = grid_height s.
Proof.
  intros Hp [Hwf Hinv] Hm.
  destruct (make_turn_cases s col p Hwf)
    as [[_ H]|[(_ & _ & H)|(_ & row & g & Hl & Hg & H)]];
    rewrite H in Hm; injection Hm as <- <-; [unfold history_inv; auto..|].
  split; [|auto]. split; [now apply placed_wf|].
  destruct Hl as (_ & Hv & _).
  pose proof (count_empty_set_cell _ _ _ _ _ Hv Hp Hg) as Hcount.
  cbn [placed grid grid_width grid_height history].
  rewrite length_app. cbn [length]. lia.
Qed.

Lemma history_inv_make_turns moves : forall s,
  Forall (fun m => snd m <> EMPTY_COLOR) moves -> history_inv s ->
  exists s', make_turns s moves = Ok s' /\ history_inv s' /\
             grid_width s' = grid_width s /\ grid_height s' = grid_height s.
Proof.
  induction moves as [|[col p] moves IH]; intros s Hmoves Hinv; cbn [make_turns].
  - eauto.
  - apply Forall_cons in Hmoves as [Hp Hmoves]. cbn [snd] in Hp.
    destruct (make_turn s col p) as [[r s1]| |] eqn:Hm.
    + destruct (history_inv_make_turn s col p r s1 Hp Hinv Hm) as (Hinv1 & Hw1 & Hh1).
      cbn [bind snd].
      destruct (IH s1 Hmoves Hinv1) as (s' & Hs' & Hinv' & Hw' & Hh').
      exists s'. rewrite Hw', Hh', Hw1, Hh1. auto.
    + exfalso. destruct Hinv as [Hwf _].
      destruct (make_turn_cases s col p Hwf)
        as [[_ H]|[(_ & _ & H)|(_ & row & g & _ & _ & H)]]; congruence.
    + exfalso. destruct Hinv as [Hwf _].
      destruct (make_turn_cases s col p Hwf)
        as [[_ H]|[(_ & _ & H)|(_ & row & g & _ & _ & H)]]; congruence.
Qed.

(** C8 (as the code has it). From the state returned by [init_state],
    after any sequence of calls of [make_turn] (successful or failed,
    with arbitrary columns) whose player ids differ from the empty
    marker, the history is no longer than [grid_width * grid_height]. *)
Theorem history_bound width height s0 moves :
  is_size_t width -> is_size_t height ->
  init_state width height = Ok (Some s0) ->
  Forall (fun m => snd m <> EMPTY_COLOR) moves ->
  Z.of_nat (length (history s0)) <= grid_width s0 * grid_height s0 /\
  exists s, make_turns s0 moves = Ok s /\
            grid_width s = width /\ grid_height s = height /\
            Z.of_nat (length (history s)) <= grid_width s * grid_height s.
Proof.
  intros Hw Hh Hs Hmoves.
  destruct (history_inv_init width height s0 Hw Hh Hs) as (Hinv & Hw0 & Hh0 & Hhist).
  split; [destruct Hinv as [_ Hinv]; lia|].
  destruct (history_inv_make_turns moves s0 Hmoves Hinv) as (s & Hms & [_ Hinv'] & Hw' & Hh').
  exists s. split; [exact Hms|]. split; [congruence|]. split; [congruence|]. lia.
Qed.

Lemma history_bound_witness :
  is_size_t 1 /\ is_size_t 1 /\
  init_state 1 1 = Ok (Some (mkGameState [[0]] 1 1 [])) /\
  Forall (fun m : Z * IdType => snd m <> EMPTY_COLOR) [(0, 1); (0, 2); (5, 1)] /\
  exists s, make_turns (mkGameState [[0]] 1 1 []) [(0, 1); (0, 2); (5, 1)] = Ok s /\
            grid_width s = 1 /\ grid_height s = 1 /\
            Z.of_nat (length (history s)) <= grid_width s * grid_height s.
Proof.
  assert (is_size_t 1) as H1 by (unfold is_size_t, SIZE_MAX; lia).
  assert (Forall (fun m : Z * IdType => snd m <> EMPTY_COLOR) [(0, 1); (0, 2); (5, 1)])
    as Hmoves by (repeat constructor; discriminate).
  split; [exact H1|]. split; [exact H1|]. split; [reflexivity|].
  split; [exact Hmoves|].
  exact (proj2 (history_bound 1 1 (mkGameState [[0]] 1 1 []) _ H1 H1 eq_refl Hmoves)).
Defined.

(** C8, as stated, fails with the empty marker as player id: on the grid
    of one cell, two moves of player id 0 both succeed and the history
    holds two entries. *)
Lemma history_exceeds_grid :
  init_state 1 1 = Ok (Some (mkGameState [[0]] 1 1 [])) /\
  make_turns (mkGameState [[0]] 1 1 []) [(0, 0); (0, 0)]
  = Ok (mkGameState [[0]] 1 1 [(0, 0, 0); (0, 0, 0)]) /\
  ~ Z.of_nat (length [(0, 0, 0); (0, 0, 0)]) <= 1 * 1.
Proof.
  split; [reflexivity|]. split; [reflexivity|]. simpl. lia.
Qed.

(** ** Win detection on the bottom row of the 10 x 10 grid *)

Lemma placed_last s g row col p :
  is_int row -> is_int col ->
  last (history (placed s g row col p)) = Some (row, col, p).
Proof.
  intros Hr Hc. unfold placed; cbn [history].
  rewrite last_snoc. now rewrite !to_int_id by assumption.
Qed.

(** C2. On a 10 x 10 grid, when a successful [make_turn] of player [p]
    lands on the bottom row (row 9) in one of the columns 0..3 and
    columns 0, 1, 2, 3 of that row then hold tokens of [p],
    [is_terminal] returns [p]; when it lands in one of the columns 0..2,
    columns 0, 1, 2 of the row hold tokens of [p] and no cell next to
    them (column 3 of the row, columns 0..3 of row 8) holds a token of
    [p], [is_terminal] returns nothing. *)
Theorem horizontal_win s col p s' :
  wf s -> grid_width s = 10 -> grid_height s = 10 ->
  make_turn s col p = Ok (None, s') ->
  lowest_empty s col 9 ->
  (0 <= col <= 3 ->
   (forall k, 0 <= k <= 3 -> get_cell (grid s') 9 k = Ok p) ->
   is_terminal s' = Ok (Some p)) /\
  (0 <= col <= 2 ->
   (forall k, 0 <= k <= 2 -> get_cell (grid s') 9 k = Ok p) ->
   get_cell (grid s') 9 3 <> Ok p ->
   (forall k, 0 <= k <= 3 -> get_cell (grid s') 8 k <> Ok p) ->
   is_terminal s' = Ok None).
Proof.
  intros Hwf Hw Hh Hm Hl.
  assert (0 <= col < grid_width s) as Hc.
  { destruct (make_turn_cases s col p Hwf) as [[_ H]|[(_ & _ & H)|(Hc & _)]];
      [rewrite H in Hm; discriminate..|exact Hc]. }
  destruct (make_turn_place s col p 9 Hwf Hc Hl) as (g & Hg & Hm').
  rewrite Hm' in Hm. injection Hm as <-.
  pose proof (placed_wf s g 9 col p Hwf Hg) as Hwf'.
  assert (int_columns (placed s g 9 col p)) as Hwi'.
  { unfold int_columns, placed, line_offset, line_len, INT_MAX.
    cbn [grid_width]. lia. }
  assert (last (history (placed s g 9 col p)) = Some (9, col, p)) as Hlast.
  { apply placed_last; unfold is_int, INT_MIN, INT_MAX; lia. }
  assert (in_grid (placed s g 9 col p) 9 col) as Hin.
  { unfold in_grid, placed. cbn [grid_width grid_height]. lia. }
  assert (grid_width (placed s g 9 col p) = 10) as Hw' by exact Hw.
  assert (grid_height (placed s g 9 col p) = 10) as Hh' by exact Hh.
  set (s' := placed s g 9 col p) in *. clearbody s'.
  split.
  - intros Hcol Hrow.
    apply (is_terminal_horizontal s' 9 col p 0); [assumption..| |lia].
    intros j Hj. unfold line_len in Hj. split.
    + unfold in_grid. lia.
    + replace (9 + j * 0) with 9 by lia. replace (0 + j * 1) with j by lia.
      apply Hrow. lia.
  - intros Hcol Hrow Hnext Habove.
    destruct (is_terminal_safe s' 9 col p Hwf' Hwi' Hlast Hin) as [[q|] Hr];
      [exfalso|exact Hr].
    destruct (is_terminal_some s' 9 col p q Hwf' Hwi' Hlast Hin Hr)
      as (_ & m & Hm3 & Hfour).
    rewrite Hw' in Hfour.
    destruct Hfour as [Hfour|[Hfour|[Hfour|Hfour]]].
    + destruct (Hfour 3) as [[Hr3 _] _]; [unfold line_len; lia|].
      destruct (Hfour 2) as [_ Hv]; [unfold line_len; lia|].
      apply (Habove col); [lia|]. rewrite <- Hv. f_equal; lia.
    + destruct (Hfour (3 - m)) as [_ Hv]; [unfold line_len; lia|].
      apply Hnext. rewrite <- Hv. f_equal; lia.
    + destruct (Hfour 3) as [[Hr3 _] _]; [unfold line_len; lia|].
      destruct (Hfour 2) as [_ Hv]; [unfold line_len; lia|].
      apply (Habove 2); [lia|]. rewrite <- Hv. f_equal; lia.
    + destruct (Hfour 3) as [[Hr3 _] _]; [unfold line_len; lia|].
      destruct (Hfour 2) as [_ Hv]; [unfold line_len; lia|].
      apply (Habove (col + 1)); [lia|]. rewrite <- Hv. f_equal; lia.
Qed.

Lemma after_turns_wf moves : wf (after_turns moves).
Proof.
  unfold after_turns.
  rewrite init_state_ok by (unfold INT_MAX, max_size; lia).
  assert (forall moves s r s', wf s -> play s moves = Ok (r, s') -> wf s') as Hplay.
  { clear moves. induction moves as [|[c p] moves IH]; intros s r s' Hwf Hp.
    - injection Hp as <- <-. exact Hwf.
    - cbn [play] in Hp.
      destruct (make_turn s c p) as [[[e|] s1]| |] eqn:Hm; cbn [bind] in Hp;
        [|eapply IH; [eapply make_turn_wf|]; eassumption|discriminate..].
      injection Hp as <- <-. eapply make_turn_wf; eassumption. }
  assert (wf {| grid := empty_grid 10 10; grid_width := 10; grid_height := 10;
                history := [] |}) as Hwf0
    by (apply empty_grid_wf; unfold SIZE_MAX, INT_MAX; lia).
  destruct (play _ moves) as [[r s]| |] eqn:Hp; [|exact Hwf0..].
  eapply Hplay; eassumption.
Qed.

Lemma bottom_lowest s col :
  grid_height s = 10 -> get_cell (grid s) 9 col = Ok EMPTY_COLOR ->
  lowest_empty s col 9.
Proof.
  intros Hh Hv. unfold lowest_empty. rewrite Hh.
  split; [lia|]. split; [exact Hv|]. intros row' Hr. lia.
Qed.

Lemma horizontal_win_witness :
  (wf bottom_three /\ grid_width bottom_three = 10 /\ grid_height bottom_three = 10 /\
   make_turn bottom_three 3 1 = Ok (None, bottom_four) /\
   lowest_empty bottom_three 3 9 /\
   is_terminal bottom_four = Ok (Some 1)) /\
  (wf bottom_two /\ grid_width bottom_two = 10 /\ grid_height bottom_two = 10 /\
   make_turn bottom_two 2 1 = Ok (None, bottom_three) /\
   lowest_empty bottom_two 2 9 /\
   is_terminal bottom_three = Ok None).
Proof.
  pose proof (after_turns_wf [(0, 1); (1, 1); (2, 1)]) as Hwf3.
  pose proof (after_turns_wf [(0, 1); (1, 1)]) as Hwf2.
  pose proof (bottom_lowest bottom_three 3 eq_refl eq_refl) as Hl3.
  pose proof (bottom_lowest bottom_two 2 eq_refl eq_refl) as Hl2.
  split.
  - split; [exact Hwf3|]. split; [reflexivity|]. split; [reflexivity|].
    split; [reflexivity|]. split; [exact Hl3|].
    refine (proj1 (horizontal_win bottom_three 3 1 bottom_four
                     Hwf3 eq_refl eq_refl eq_refl Hl3) _ _); [lia|].
    intros k Hk.
    assert (k = 0 \/ k = 1 \/ k = 2 \/ k = 3) as [->|[->|[->| ->]]] by lia;
      reflexivity.
  - split; [exact Hwf2|]. split; [reflexivity|]. split; [reflexivity|].
    split; [reflexivity|]. split; [exact Hl2|].
    refine (proj2 (horizontal_win bottom_two 2 1 bottom_three
                     Hwf2 eq_refl eq_refl eq_refl Hl2) _ _ _ _); [lia| | |].
    + intros k Hk.
      assert (k = 0 \/ k = 1 \/ k = 2) as [->|[->| ->]] by lia; reflexivity.
    + discriminate.
    + intros k Hk.
      assert (k = 0 \/ k = 1 \/ k = 2 \/ k = 3) as [->|[->|[->| ->]]] by lia;
        discriminate.
Defined.

(** ** Win detection on a diagonal *)

(** C1 (the code at a failing input). After the turns of
    [diagonal_game], none of which is reported as terminal before the
    last, the last token of player 1 lands on (6,0) and completes the
    diagonal (6,0), (7,1), (8,2), (9,3); [is_terminal] returns nothing. *)
Theorem diagonal_win_missed :
  init_state 10 10 = Ok (Some (after_turns [])) /\
  play (after_turns []) diagonal_game = Ok (None, diagonal_state) /\
  last (history diagonal_state) = Some (6, 0, 1) /\
  four_in_line diagonal_state 6 0 1 1 1 /\
  is_terminal diagonal_state = Ok None /\
  (forall k : nat, (k < length diagonal_game)%nat ->
     is_terminal (after_turns (take k diagonal_game)) = Ok None).
Proof.
  split; [reflexivity|]. split; [reflexivity|]. split; [reflexivity|].
  split; [|split; [reflexivity|]].
  - intros j Hj. unfold line_len in Hj.
    assert (j = 0 \/ j = 1 \/ j = 2 \/ j = 3) as [->|[->|[->| ->]]] by lia;
      (split; [unfold in_grid; simpl; lia|reflexivity]).
  - intros k Hk. cbn [diagonal_game length] in Hk.
    do 11 (destruct k as [|k]; [reflexivity|]). lia.
Qed.

(** * Further properties of the code *)

(** ** What [is_terminal] reports *)

(** X1. A winner reported by [is_terminal] is the player of the last
    move, and four cells in a line, in one of the four scanned
    directions, hold its tokens. *)
Theorem winner_has_four s row col p q :
  wf s -> int_columns s ->
  last (history s) = Some (row, col, p) -> in_grid s row col ->
  is_terminal s = Ok (Some q) ->
  q = p /\
  exists row0 col0 dr dc, scanned dr dc /\ four_in_line s row0 col0 dr dc p.
Proof.
  intros Hwf Hwi Hlast Hin Hq.
  destruct (is_terminal_some s row col p q Hwf Hwi Hlast Hin Hq)
    as (Heq & m & _ & [H|[H|[H|H]]]); (split; [exact Heq|]);
    unfold scanned; eauto 12.
Qed.

Lemma bottom_four_last : last (history bottom_four) = Some (9, 3, 1).
Proof. reflexivity. Qed.

Lemma bottom_four_int_columns : int_columns bottom_four.
Proof. unfold int_columns, INT_MAX, line_offset, line_len. simpl. lia. Qed.

Lemma bottom_four_in_grid : in_grid bottom_four 9 3.
Proof. unfold in_grid. simpl. lia. Qed.

Lemma winner_has_four_witness :
  wf bottom_four /\ int_columns bottom_four /\
  last (history bottom_four) = Some (9, 3, 1) /\ in_grid bottom_four 9 3 /\
  is_terminal bottom_four = Ok (Some 1) /\
  1 = 1 /\
  exists row0 col0 dr dc, scanned dr dc /\ four_in_line bottom_four row0 col0 dr dc 1.
Proof.
  pose proof (after_turns_wf [(0, 1); (1, 1); (2, 1); (3, 1)]) as Hwf.
  split; [exact Hwf|]. split; [exact bottom_four_int_columns|].
  split; [reflexivity|]. split; [exact bottom_four_in_grid|].
  split; [reflexivity|].
  exact (winner_has_four bottom_four 9 3 1 1 Hwf bottom_four_int_columns
           bottom_four_last bottom_four_in_grid eq_refl).
Defined.

(** The last entry of the history after a successful move. *)
Lemma make_turn_last s col p s' :
  wf s -> grid_width s <= INT_MAX -> make_turn s col p = Ok (None, s') ->
  exists row,
    lowest_empty s col row /\ 0 <= col < grid_width s /\
    wf s' /\ grid_width s' = grid_width s /\ grid_height s' = grid_height s /\
    history s' = history s ++ [(row, col, p)] /\
    last (history s') = Some (row, col, p) /\ in_grid s' row col /\
    get_cell (grid s') row col = Ok p.
Proof.
  intros Hwf Hwi Hm.
  destruct (make_turn_cases s col p Hwf)
    as [[_ H]|[(_ & _ & H)|(Hc & row & g & Hl & Hg & H)]];
    rewrite H in Hm; [discriminate..|].
  injection Hm as <-. exists row.
  pose proof (lowest_empty_row_int s col row Hwf Hl) as Hri.
  assert (to_int col = col) as Hci
    by (apply to_int_id; unfold is_int, INT_MIN, INT_MAX in *; lia).
  split; [exact Hl|]. split; [exact Hc|]. split; [now apply placed_wf|].
  unfold placed; cbn [grid grid_width grid_height history]. rewrite Hri, Hci.
  split; [reflexivity|]. split; [reflexivity|]. split; [reflexivity|].
  split; [apply last_snoc|]. split.
  - destruct Hl as (Hr & _). unfold in_grid; cbn [grid_width grid_height]. lia.
  - now apply get_set_same with (g := grid s).
Qed.

Ltac concrete_four :=
  let j := fresh "j" in let Hj := fresh "Hj" in
  intros j Hj; unfold line_len in Hj;
  assert (j = 0 \/ j = 1 \/ j = 2 \/ j = 3) as [->|[->|[->| ->]]] by lia;
  (split; [unfold in_grid; simpl; lia|reflexivity]).

Ltac concrete_int_columns :=
  unfold int_columns, INT_MAX, line_offset, line_len; simpl; lia.

(** X2. After a successful [make_turn], four tokens of the player in
    the column of the move, the landing cell among them, are always
    reported by [is_terminal]. *)
Theorem vertical_four_reported s col p s' row top :
  wf s -> int_columns s ->
  make_turn s col p = Ok (None, s') -> lowest_empty s col row ->
  four_in_line s' top col 1 0 p -> top <= row <= top + 3 ->
  is_terminal s' = Ok (Some p).
Proof.
  intros Hwf Hwi Hm Hl Hfour Htop.
  destruct (make_turn_last s col p s' Hwf (int_columns_width s Hwi) Hm)
    as (row' & Hl' & Hc & Hwf' & Hw' & Hh' & _ & Hlast & Hin & _).
  rewrite (lowest_empty_unique s col row' row Hl' Hl) in *.
  apply (is_terminal_vertical s' row col p top); try assumption.
  unfold int_columns in *. now rewrite Hw'.
Qed.

Lemma column_three_wf : wf column_three.
Proof. exact (after_turns_wf [(5, 1); (0, 2); (5, 1); (0, 2); (5, 1); (0, 2)]). Qed.

Lemma vertical_four_reported_witness :
  wf column_three /\ int_columns column_three /\
  make_turn column_three 5 1 = Ok (None, column_four) /\
  lowest_empty column_three 5 6 /\
  four_in_line column_four 6 5 1 0 1 /\ 6 <= 6 <= 6 + 3 /\
  is_terminal column_four = Ok (Some 1).
Proof.
  assert (int_columns column_three) as Hwi by concrete_int_columns.
  assert (lowest_empty column_three 5 6) as Hl.
  { split; [simpl; lia|]. split; [reflexivity|]. intros row' Hr.
    cbn [column_three grid_height] in Hr.
    assert (row' = 7 \/ row' = 8 \/ row' = 9) as [->|[->| ->]] by lia;
      eexists; (split; [reflexivity|discriminate]). }
  assert (four_in_line column_four 6 5 1 0 1) as Hfour by concrete_four.
  assert (6 <= 6 <= 6 + 3) as Hr by lia.
  split; [exact column_three_wf|]. split; [exact Hwi|]. split; [reflexivity|].
  split; [exact Hl|]. split; [exact Hfour|]. split; [exact Hr|].
  exact (vertical_four_reported column_three 5 1 column_four 6 6
           column_three_wf Hwi eq_refl Hl Hfour Hr).
Defined.

(** X3. After a successful [make_turn], four tokens of the player in the
    row of the landing cell, the landing cell among them, are always
    reported by [is_terminal]. *)
Theorem horizontal_four_reported s col p s' row left :
  wf s -> int_columns s ->
  make_turn s col p = Ok (None, s') -> lowest_empty s col row ->
  four_in_line s' row left 0 1 p -> left <= col <= left + 3 ->
  is_terminal s' = Ok (Some p).
Proof.
  intros Hwf Hwi Hm Hl Hfour Hleft.
  destruct (make_turn_last s col p s' Hwf (int_columns_width s Hwi) Hm)
    as (row' & Hl' & Hc & Hwf' & Hw' & Hh' & _ & Hlast & Hin & _).
  rewrite (lowest_empty_unique s col row' row Hl' Hl) in *.
  apply (is_terminal_horizontal s' row col p left); try assumption.
  unfold int_columns in *. now rewrite Hw'.
Qed.

Lemma bottom_three_wf : wf bottom_three.
Proof. exact (after_turns_wf [(0, 1); (1, 1); (2, 1)]). Qed.

Lemma bottom_three_int_columns : int_columns bottom_three.
Proof. concrete_int_columns. Qed.

Lemma horizontal_four_reported_witness :
  wf bottom_three /\ int_columns bottom_three /\
  make_turn bottom_three 3 1 = Ok (None, bottom_four) /\
  lowest_empty bottom_three 3 9 /\
  four_in_line bottom_four 9 0 0 1 1 /\ 0 <= 3 <= 0 + 3 /\
  is_terminal bottom_four = Ok (Some 1).
Proof.
  pose proof (bottom_lowest bottom_three 3 eq_refl eq_refl) as Hl.
  assert (four_in_line bottom_four 9 0 0 1 1) as Hfour by concrete_four.
  assert (0 <= 3 <= 0 + 3) as Hc by lia.
  split; [exact bottom_three_wf|]. split; [exact bottom_three_int_columns|].
  split; [reflexivity|]. split; [exact Hl|].
  split; [exact Hfour|]. split; [exact Hc|].
  exact (horizontal_four_reported bottom_three 3 1 bottom_four 9 0
           bottom_three_wf bottom_three_int_columns eq_refl Hl Hfour Hc).
Defined.

(** X4. On a well-formed state of [int] columns
    ([grid_width <= 2^31 - 3]), after a successful [make_turn] that
    lands at least [line_offset] cells away from the top, left and right
    edges of the grid, where no start coordinate is clamped, four tokens
    of the player on a diagonal through the landing cell are reported by
    [is_terminal]. *)
Theorem diagonal_four_reported s col p s' row row0 col0 dc :
  wf s -> int_columns s ->
  make_turn s col p = Ok (None, s') -> lowest_empty s col row ->
  3 <= row -> 3 <= col <= grid_width s - 4 ->
  dc = 1 \/ dc = -1 ->
  four_in_line s' row0 col0 1 dc p ->
  0 <= row - row0 <= 3 -> col - col0 = (row - row0) * dc ->
  is_terminal s' = Ok (Some p).
Proof.
  intros Hwf Hwi Hm Hl Hrow Hcol Hdc Hfour Hoff Hdiag.
  destruct (make_turn_last s col p s' Hwf (int_columns_width s Hwi) Hm)
    as (row' & Hl' & Hc & Hwf' & Hw' & Hh' & _ & Hlast & Hin & _).
  rewrite (lowest_empty_unique s col row' row Hl' Hl) in *.
  assert (int_columns s') as Hwi' by (unfold int_columns in *; now rewrite Hw').
  destruct Hdc as [->| ->].
  - apply (is_terminal_diagonal1 s' row col p row0 col0); try assumption; lia.
  - apply (is_terminal_diagonal2 s' row col p row0 col0); try assumption; lia.
Qed.

Lemma diagonal_four_reported_witness :
  wf slope_three /\ int_columns slope_three /\
  make_turn slope_three 3 1 = Ok (None, slope_four) /\
  lowest_empty slope_three 3 6 /\
  3 <= 6 /\ 3 <= 3 <= grid_width slope_three - 4 /\
  four_in_line slope_four 6 3 1 1 1 /\
  is_terminal slope_four = Ok (Some 1).
Proof.
  pose proof (after_turns_wf [(6, 1); (5, 2); (5, 1); (4, 2); (4, 2); (4, 1);
                              (3, 2); (3, 2); (3, 2)]) as Hwf.
  assert (int_columns slope_three) as Hwi by concrete_int_columns.
  assert (lowest_empty slope_three 3 6) as Hl.
  { split; [simpl; lia|]. split; [reflexivity|]. intros row' Hr.
    cbn [slope_three grid_height] in Hr.
    assert (row' = 7 \/ row' = 8 \/ row' = 9) as [->|[->| ->]] by lia;
      eexists; (split; [reflexivity|discriminate]). }
  assert (four_in_line slope_four 6 3 1 1 1) as Hfour by concrete_four.
  assert (3 <= 3 <= grid_width slope_three - 4) as Hc by (simpl; lia).
  split; [exact Hwf|]. split; [exact Hwi|]. split; [reflexivity|].
  split; [exact Hl|]. split; [lia|]. split; [exact Hc|]. split; [exact Hfour|].
  exact (diagonal_four_reported slope_three 3 1 slope_four 6 6 3 1 Hwf Hwi eq_refl Hl
           ltac:(lia) Hc (or_introl eq_refl) Hfour ltac:(lia) ltac:(lia)).
Defined.

(** ** What [check_line] returns *)

Lemma path_between s row col dr dc (m : nat) :
  unit_step dr -> unit_step dc ->
  in_grid s row col ->
  in_grid s (row + Z.of_nat m * dr) (col + Z.of_nat m * dc) ->
  path_in s row col dr dc m.
Proof.
  intros Hdr Hdc [Hr Hc] [Hr' Hc']. apply path_in_cells. intros j Hj.
  unfold unit_step, in_grid in *.
  assert (dr = -1 \/ dr = 0 \/ dr = 1) as [->|[->| ->]] by lia;
    assert (dc = -1 \/ dc = 0 \/ dc = 1) as [->|[->| ->]] by lia; lia.
Qed.

(** X5. On a well-formed state at most [INT_MAX] columns wide
    ([grid_width <= 2^31 - 1]), from a cell of the grid and with steps
    in {-1, 0, 1}, [check_line] over [line_steps] steps returns, and
    returns [true] exactly when four consecutive cells of the line,
    starting at most [line_offset] cells after the start cell, are cells
    of the grid that hold the player id. *)
Theorem check_line_exact s row col dr dc p :
  wf s -> grid_width s <= INT_MAX ->
  unit_step dr -> unit_step dc -> in_grid s row col ->
  exists b, check_line s row col dr dc line_steps p = Ok b /\
    (b = true <->
     exists m, 0 <= m <= 3 /\ four_in_line s (row + m * dr) (col + m * dc) dr dc p).
Proof.
  intros Hwf Hwi Hdr Hdc Hin.
  destruct (check_line_safe s dr dc p Hwf Hwi Hdr Hdc row col line_steps Hin) as [b Hb].
  exists b. split; [exact Hb|]. split.
  - intros ->.
    destruct (check_line_true s dr dc p Hwf Hwi Hdr Hdc row col line_steps Hin Hb)
      as (m & Hm & Hrun).
    change (Z.to_nat line_steps) with 7%nat in Hm.
    exists (Z.of_nat m). split; [lia|]. now apply run_from_four.
  - intros (m & Hm & Hfour).
    assert (check_line s row col dr dc line_steps p = Ok true) as Ht.
    { apply (check_line_finds s dr dc p Hwf Hwi Hdr Hdc row col (Z.to_nat m)); [lia| |].
      - apply path_between; try assumption.
        rewrite Z2Nat.id by lia.
        destruct (four_in_line_ends _ _ _ _ _ _ Hfour) as [H0 _]. exact H0.
      - apply run_from_four. now rewrite Z2Nat.id by lia. }
    congruence.
Qed.

Lemma check_line_exact_witness :
  wf bottom_four /\ grid_width bottom_four <= INT_MAX /\
  unit_step 0 /\ unit_step 1 /\ in_grid bottom_four 9 0 /\
  exists b, check_line bottom_four 9 0 0 1 line_steps 1 = Ok b /\
    (b = true <->
     exists m, 0 <= m <= 3 /\ four_in_line bottom_four (9 + m * 0) (0 + m * 1) 0 1 1).
Proof.
  pose proof (after_turns_wf [(0, 1); (1, 1); (2, 1); (3, 1)]) as Hwf.
  pose proof (int_columns_width _ bottom_four_int_columns) as Hwi.
  destruct unit_steps as (U0 & U1 & _).
  assert (in_grid bottom_four 9 0) as Hin by (unfold in_grid; simpl; lia).
  split; [exact Hwf|]. split; [exact Hwi|]. split; [exact U0|]. split; [exact U1|].
  split; [exact Hin|].
  exact (check_line_exact bottom_four 9 0 0 1 1 Hwf Hwi U0 U1 Hin).
Defined.

(** ** What sequences of turns keep *)

Lemma make_turn_dims s col p r s' :
  wf s -> make_turn s col p = Ok (r, s') ->
  grid_width s' = grid_width s /\ grid_height s' = grid_height s.
Proof.
  intros Hwf Hm.
  destruct (make_turn_cases s col p Hwf)
    as [[_ H]|[(_ & _ & H)|(_ & row & g & _ & _ & H)]];
    rewrite H in Hm; injection Hm as <- <-; auto.
Qed.

(** X6. On a well-formed state any sequence of calls of [make_turn]
    returns; it keeps the dimensions and the shape of the grid, and only
    appends to the history, at most one entry for each call. *)
Theorem make_turns_append_only s moves :
  wf s ->
  exists s', make_turns s moves = Ok s' /\
    wf s' /\ grid_width s' = grid_width s /\ grid_height s' = grid_height s /\
    history s `prefix_of` history s' /\
    (length (history s') <= length (history s) + length moves)%nat.
Proof.
  revert s. induction moves as [|[col p] moves IH]; intros s Hwf; cbn [make_turns].
  - exists s. split; [reflexivity|]. split; [exact Hwf|].
    split; [reflexivity|]. split; [reflexivity|]. split; [reflexivity|lia].
  - assert (exists r s1, make_turn s col p = Ok (r, s1) /\ wf s1 /\
              grid_width s1 = grid_width s /\ grid_height s1 = grid_height s /\
              history s `prefix_of` history s1 /\
              (length (history s1) <= S (length (history s)))%nat)
      as (r & s1 & Hm & Hwf1 & Hw1 & Hh1 & Hp1 & Hl1).
    { destruct (make_turn_cases s col p Hwf)
        as [[_ H]|[(_ & _ & H)|(_ & row & g & _ & Hg & H)]]; rewrite H.
      - exists (Some err_range), s. split; [reflexivity|]. split; [exact Hwf|].
        split; [reflexivity|]. split; [reflexivity|]. split; [reflexivity|lia].
      - exists (Some err_full), s. split; [reflexivity|]. split; [exact Hwf|].
        split; [reflexivity|]. split; [reflexivity|]. split; [reflexivity|lia].
      - exists None, (placed s g row col p).
        split; [reflexivity|]. split; [now apply placed_wf|].
        unfold placed; cbn [grid_width grid_height history].
        split; [reflexivity|]. split; [reflexivity|].
        split; [now apply prefix_app_r|]. rewrite length_app. cbn [length]. lia. }
    rewrite Hm. cbn [bind snd].
    destruct (IH s1 Hwf1) as (s' & Hs' & Hwf' & Hw' & Hh' & Hp' & Hl').
    exists s'. split; [exact Hs'|]. split; [exact Hwf'|].
    split; [congruence|]. split; [congruence|].
    split; [now transitivity (history s1)|]. cbn [length]. lia.
Qed.

Lemma make_turns_append_only_witness :
  wf demo_state /\
  exists s', make_turns demo_state [(1, 1); (7, 2); (0, 2)] = Ok s' /\
    wf s' /\ grid_width s' = grid_width demo_state /\
    grid_height s' = grid_height demo_state /\
    history demo_state `prefix_of` history s' /\
    (length (history s') <= length (history demo_state)
                            + length [(1, 1); (7, 2); (0, 2)])%nat.
Proof.
  split; [exact demo_state_wf|].
  exact (make_turns_append_only demo_state [(1, 1); (7, 2); (0, 2)] demo_state_wf).
Defined.

Lemma make_turn_keeps_occupied s col p r s' row0 col0 v :
  wf s -> in_grid s row0 col0 ->
  get_cell (grid s) row0 col0 = Ok v -> v <> EMPTY_COLOR ->
  make_turn s col p = Ok (r, s') ->
  get_cell (grid s') row0 col0 = Ok v.
Proof.
  intros Hwf [Hr0 Hc0] Hv Hne Hm.
  destruct (make_turn_cases s col p Hwf)
    as [[_ H]|[(_ & _ & H)|(Hc & row & g & Hl & Hg & H)]];
    rewrite H in Hm; injection Hm as <- <-; [assumption..|].
  cbn [placed grid]. rewrite <- Hv.
  pose proof Hwf as (Hw & Hh & _). destruct Hl as (Hr & Hempty & _).
  unfold INT_MAX, SIZE_MAX in *.
  apply (get_set_other (grid s) row col p); trivial;
    try (unfold is_size_t, SIZE_MAX; lia).
  intros [= -> ->]. congruence.
Qed.

(** X7. No sequence of calls of [make_turn] changes an occupied cell. *)
Theorem occupied_cell_kept s moves s' row col v :
  wf s -> in_grid s row col ->
  get_cell (grid s) row col = Ok v -> v <> EMPTY_COLOR ->
  make_turns s moves = Ok s' ->
  get_cell (grid s') row col = Ok v.
Proof.
  revert s. induction moves as [|[c p] moves IH]; intros s Hwf Hin Hv Hne Hs';
    cbn [make_turns] in Hs'.
  - now injection Hs' as <-.
  - destruct (make_turn s c p) as [[r s1]| |] eqn:Hm; [|discriminate..].
    cbn [bind snd] in Hs'.
    pose proof (make_turn_wf s c p r s1 Hwf Hm) as Hwf1.
    pose proof (make_turn_keeps_occupied s c p r s1 row col v Hwf Hin Hv Hne Hm) as Hv1.
    apply (IH s1); trivial.
    destruct (make_turn_dims s c p r s1 Hwf Hm) as [Hw1 Hh1].
    unfold in_grid in *. now rewrite Hw1, Hh1.
Qed.

Lemma occupied_cell_kept_witness :
  wf demo_state /\ in_grid demo_state 0 0 /\
  get_cell (grid demo_state) 0 0 = Ok 1 /\ 1 <> EMPTY_COLOR /\
  exists s', make_turns demo_state [(0, 2); (1, 2); (0, 0)] = Ok s' /\
             get_cell (grid s') 0 0 = Ok 1.
Proof.
  assert (1 <> EMPTY_COLOR) as Hne by discriminate.
  split; [exact demo_state_wf|]. split; [exact demo_state_last_in_grid|].
  split; [reflexivity|]. split; [exact Hne|].
  eexists. split; [reflexivity|].
  exact (occupied_cell_kept demo_state [(0, 2); (1, 2); (0, 0)] _ 0 0 1
           demo_state_wf demo_state_last_in_grid eq_refl Hne eq_refl).
Defined.

(** ** What reachable states look like *)

Lemma play_reachable moves : forall s r s',
  reachable s -> play s moves = Ok (r, s') -> reachable s'.
Proof.
  induction moves as [|[c p] moves IH]; intros s r s' Hs Hp; cbn [play] in Hp.
  - now injection Hp as <- <-.
  - destruct (make_turn s c p) as [[[e|] s1]| |] eqn:Hm; cbn [bind] in Hp;
      [|eapply IH; [eapply reachable_turn|]; eassumption|discriminate..].
    injection Hp as <- <-. eapply reachable_turn; eassumption.
Qed.

Lemma after_turns_reachable moves : reachable (after_turns moves).
Proof.
  unfold after_turns.
  assert (reachable {| grid := empty_grid 10 10; grid_width := 10;
                       grid_height := 10; history := [] |}) as H0.
  { apply (reachable_init 10 10); [unfold is_size_t, SIZE_MAX; lia..|].
    apply init_state_ok; unfold INT_MAX, max_size; lia. }
  rewrite init_state_ok by (unfold INT_MAX, max_size; lia).
  destruct (play _ moves) as [[r s]| |] eqn:Hp; [|exact H0..].
  eapply play_reachable; eassumption.
Qed.

Lemma empty_grid_stacked width height :
  0 < width <= SIZE_MAX -> 0 < height <= INT_MAX ->
  stacked {| grid := empty_grid width height; grid_width := width;
             grid_height := height; history := [] |}.
Proof.
  intros Hw Hh row col v [Hr Hc] Hv Hne. cbn [grid grid_width grid_height] in *.
  unfold INT_MAX, SIZE_MAX in *.
  rewrite empty_grid_cell in Hv by (unfold SIZE_MAX; lia). congruence.
Qed.

Lemma make_turn_stacked s col p r s' :
  wf s -> stacked s -> make_turn s col p = Ok (r, s') -> stacked s'.
Proof.
  intros Hwf Hst Hm.
  destruct (make_turn_cases s col p Hwf)
    as [[_ H]|[(_ & _ & H)|(Hc & row & g & Hl & Hg & H)]];
    rewrite H in Hm; injection Hm as <- <-; [assumption..|].
  pose proof Hwf as (Hw & Hh & _). unfold INT_MAX, SIZE_MAX in *.
  pose proof Hl as (Hr & Hempty & Hbelow).
  assert (forall row1 col1, 0 <= row1 < grid_height s -> 0 <= col1 < grid_width s ->
            (row1, col1) <> (row, col) ->
            get_cell g row1 col1 = get_cell (grid s) row1 col1) as Hother.
  { intros row1 col1 Hr1 Hc1 Hne.
    apply (get_set_other (grid s) row col p); trivial;
      unfold is_size_t, SIZE_MAX; lia. }
  pose proof (get_set_same _ _ _ _ _ Hg) as Hsame.
  intros row0 col0 v [Hr0 Hc0] Hv Hne row' Hr'.
  cbn [placed grid grid_width grid_height] in *.
  destruct (decide ((row0, col0) = (row, col))) as [[= -> ->]|Hd].
  - rewrite Hother; [apply Hbelow; lia|lia|lia|intros Heq; injection Heq; lia].
  - rewrite Hother in Hv by assumption.
    destruct (Hst row0 col0 v ltac:(split; assumption) Hv Hne row' Hr')
      as (v' & Hv' & Hne').
    exists v'. split; [|exact Hne'].
    rewrite Hother; [exact Hv'|lia|lia|].
    intros [= -> ->]. congruence.
Qed.

(** In every reachable state, every cell below an occupied cell is
    occupied. *)
Lemma reachable_no_floating s : reachable s -> stacked s.
Proof.
  induction 1 as [width height s Hw Hh Hs|s col p r s' Hreach IH Hm].
  - destruct (init_state_some width height s Hs Hh) as [Hw0 Hh0].
    assert (0 < width <= max_size) as Hw1
    by (pose proof (init_state_some_width width height s Hs Hh);
        unfold is_size_t in Hw; lia).
    rewrite init_state_ok in Hs by assumption. injection Hs as <-.
    apply empty_grid_stacked; unfold is_size_t in *; lia.
  - eapply make_turn_stacked; [apply reachable_wf| |]; eassumption.
Qed.

Lemma above_lowest_empty s col row row' :
  wf s -> stacked s -> 0 <= col < grid_width s ->
  lowest_empty s col row -> 0 <= row' <= row ->
  get_cell (grid s) row' col = Ok EMPTY_COLOR.
Proof.
  intros Hwf Hst Hc (Hr & Hempty & _) Hr'.
  destruct (Z.eq_dec row' row) as [->|Hne]; [exact Hempty|].
  destruct (get_cell_in_grid s row' col Hwf) as [v Hv]; [unfold in_grid; lia|].
  destruct (Z.eq_dec v EMPTY_COLOR) as [->|Hv0]; [exact Hv|].
  destruct (Hst row' col v ltac:(unfold in_grid; lia) Hv Hv0 row ltac:(lia))
    as (v' & Hv' & Hne'). congruence.
Qed.

(** X8. Gravity: in every reachable state, each column of the grid is a
    stack: its cells are empty down to some row and occupied from there
    to the bottom; no token floats and no hole is left under a token. *)
Theorem reachable_column_stack s col :
  reachable s -> 0 <= col < grid_width s ->
  exists n, column_level s col n /\
    (trace_row_coordinate s col = Ok (if n =? 0 then None else Some (n - 1))).
Proof.
  intros Hreach Hc.
  pose proof (reachable_wf s Hreach) as Hwf.
  pose proof (reachable_no_floating s Hreach) as Hst.
  destruct (trace_row_coordinate_spec s col Hwf Hc) as [(row & Ht & Hl)|[Ht Hf]].
  - exists (row + 1). pose proof Hl as (Hr & _ & Hbelow). split.
    + split; [lia|]. split.
      * intros row' Hr'. apply (above_lowest_empty s col row); trivial. lia.
      * intros row' Hr'. apply Hbelow. lia.
    + destruct (Z.eqb_spec (row + 1) 0); [lia|].
      rewrite Ht. do 2 f_equal. lia.
  - exists 0. split; [|exact Ht].
    destruct Hwf as (_ & Hh & _).
    split; [lia|]. split; [intros row Hr; lia|].
    intros row Hr. apply Hf. lia.
Qed.

Lemma reachable_column_stack_witness :
  reachable diagonal_state /\ 0 <= 0 < grid_width diagonal_state /\
  exists n, column_level diagonal_state 0 n /\
    (trace_row_coordinate diagonal_state 0 = Ok (if n =? 0 then None else Some (n - 1))).
Proof.
  pose proof (after_turns_reachable diagonal_game) as Hr.
  assert (0 <= 0 < grid_width diagonal_state) as Hc by (simpl; lia).
  split; [exact Hr|]. split; [exact Hc|].
  exact (reachable_column_stack diagonal_state 0 Hr Hc).
Defined.

Lemma make_turn_history_on_grid s col p r s' :
  wf s -> grid_width s <= INT_MAX -> history_on_grid s ->
  make_turn s col p = Ok (r, s') -> history_on_grid s'.
Proof.
  intros Hwf Hwi Hhist Hm.
  destruct r as [e|].
  - assert (s' = s) as ->; [|exact Hhist].
    destruct (make_turn_cases s col p Hwf)
      as [[_ H]|[(_ & _ & H)|(_ & row & g & _ & _ & H)]];
      rewrite H in Hm; [congruence..|discriminate].
  - destruct (make_turn_last s col p s' Hwf Hwi Hm)
      as (row & Hl & Hc & Hwf' & Hw' & Hh' & Hhist' & _ & Hin & Hv).
    intros row0 col0 q Hq. rewrite Hhist' in Hq.
    apply elem_of_app in Hq as [Hq|Hq].
    + destruct (Hhist row0 col0 q Hq) as [Hin0 Hv0].
      split; [unfold in_grid in *; now rewrite Hw', Hh'|].
      intros Hne. specialize (Hv0 Hne).
      exact (make_turn_keeps_occupied s col p None s' row0 col0 q Hwf Hin0 Hv0 Hne Hm).
    + apply list_elem_of_singleton in Hq. injection Hq as -> -> ->. auto.
Qed.

Lemma reachable_history_on_grid s :
  reachable s -> grid_width s <= INT_MAX -> history_on_grid s.
Proof.
  induction 1 as [width height s Hw Hh Hs|s col p r s' Hreach IH Hm]; intros Hwi.
  - destruct (init_state_some width height s Hs Hh) as [Hw0 Hh0].
    assert (0 < width <= max_size) as Hw1
    by (pose proof (init_state_some_width width height s Hs Hh);
        unfold is_size_t in Hw; lia).
    rewrite init_state_ok in Hs by assumption. injection Hs as <-.
    intros row col p Hp. cbn [history] in Hp. now apply elem_of_nil in Hp.
  - pose proof (reachable_wf s Hreach) as Hwf.
    destruct (make_turn_dims s col p r s' Hwf Hm) as [Hw' _].
    rewrite Hw' in Hwi.
    eapply make_turn_history_on_grid; eauto.
Qed.

(** X9. On every reachable state of [int] columns
    ([grid_width <= 2^31 - 3]) [is_terminal] returns: it never reads
    outside the grid. *)
Theorem reachable_is_terminal s :
  reachable s -> int_columns s -> exists r, is_terminal s = Ok r.
Proof.
  intros Hreach Hwi.
  destruct (last (history s)) as [[[row col] p]|] eqn:Hlast.
  - apply (is_terminal_safe s row col p); [now apply reachable_wf|assumption..|].
    apply (reachable_history_on_grid s Hreach (int_columns_width s Hwi) row col p).
    now apply last_Some_elem_of.
  - unfold is_terminal. rewrite Hlast. eauto.
Qed.

Lemma diagonal_state_int_columns : int_columns diagonal_state.
Proof. concrete_int_columns. Qed.

Lemma reachable_is_terminal_witness :
  reachable diagonal_state /\ int_columns diagonal_state /\
  exists r, is_terminal diagonal_state = Ok r.
Proof.
  pose proof (after_turns_reachable diagonal_game) as Hr.
  split; [exact Hr|]. split; [exact diagonal_state_int_columns|].
  exact (reachable_is_terminal diagonal_state Hr diagonal_state_int_columns).
Defined.

(** X10. In every reachable state at most [INT_MAX] columns wide, every
    entry of the history names a cell of the grid, and the cell of an
    entry whose player is not the empty marker holds that player. *)
Theorem history_entries_on_grid s row col p :
  reachable s -> grid_width s <= INT_MAX -> (row, col, p) ∈ history s ->
  in_grid s row col /\ (p <> EMPTY_COLOR -> get_cell (grid s) row col = Ok p).
Proof.
  intros Hreach Hwi Hp. now apply (reachable_history_on_grid s Hreach Hwi).
Qed.

Lemma history_entries_on_grid_witness :
  reachable diagonal_state /\ grid_width diagonal_state <= INT_MAX /\
  (7, 1, 1) ∈ history diagonal_state /\
  in_grid diagonal_state 7 1 /\
  (1 <> EMPTY_COLOR -> get_cell (grid diagonal_state) 7 1 = Ok 1).
Proof.
  pose proof (after_turns_reachable diagonal_game) as Hr.
  pose proof (int_columns_width _ diagonal_state_int_columns) as Hwi.
  assert ((7, 1, 1) ∈ history diagonal_state) as Hin.
  { apply list_elem_of_lookup. exists 8%nat. reflexivity. }
  split; [exact Hr|]. split; [exact Hwi|]. split; [exact Hin|].
  exact (history_entries_on_grid diagonal_state 7 1 1 Hr Hwi Hin).
Defined.

(** ** Moves of the empty marker and the winner *)

(** X11. On a reachable state of [int] columns, a move of the empty
    marker that lands on row 3 or below is reported by [is_terminal] as
    a win of player 0: the landing cell and the three cells above it are
    empty. *)
Theorem empty_color_wins s col row :
  reachable s -> int_columns s ->
  0 <= col < grid_width s -> lowest_empty s col row -> 3 <= row ->
  exists s', make_turn s col EMPTY_COLOR = Ok (None, s') /\
             is_terminal s' = Ok (Some EMPTY_COLOR).
Proof.
  intros Hreach Hwi Hc Hl Hrow.
  pose proof (reachable_wf s Hreach) as Hwf.
  pose proof (reachable_no_floating s Hreach) as Hst.
  pose proof (int_columns_width s Hwi) as Hwi'.
  exists (marked s row col). split; [now apply make_turn_empty_color|].
  pose proof Hl as (Hr & _).
  apply (is_terminal_vertical (marked s row col) row col EMPTY_COLOR (row - 3)).
  - now apply marked_wf.
  - exact Hwi.
  - unfold marked; cbn [history]. rewrite last_snoc.
    rewrite (to_int_id col); [reflexivity|].
    unfold is_int, INT_MIN, INT_MAX in *. lia.
  - unfold in_grid, marked; cbn [grid_width grid_height]. lia.
  - intros j Hj. unfold line_len in Hj. unfold in_grid, marked.
    cbn [grid grid_width grid_height].
    replace (col + j * 0) with col by lia.
    split; [lia|].
    apply (above_lowest_empty s col row); trivial. lia.
  - lia.
Qed.

Lemma empty_color_wins_witness :
  reachable bottom_three /\ int_columns bottom_three /\
  0 <= 5 < grid_width bottom_three /\ lowest_empty bottom_three 5 9 /\ 3 <= 9 /\
  exists s', make_turn bottom_three 5 EMPTY_COLOR = Ok (None, s') /\
             is_terminal s' = Ok (Some EMPTY_COLOR).
Proof.
  pose proof (after_turns_reachable [(0, 1); (1, 1); (2, 1)]) as Hr.
  pose proof (bottom_lowest bottom_three 5 eq_refl eq_refl) as Hl.
  assert (0 <= 5 < grid_width bottom_three) as Hc by (simpl; lia).
  split; [exact Hr|]. split; [exact bottom_three_int_columns|].
  split; [exact Hc|]. split; [exact Hl|]. split; [lia|].
  exact (empty_color_wins bottom_three 5 9 Hr bottom_three_int_columns Hc Hl
           ltac:(lia)).
Defined.

(** ** Filling a column *)

Lemma level_lowest s col n :
  column_level s col n -> 0 < n -> lowest_empty s col (n - 1).
Proof.
  intros (Hn & Hempty & Hfull) Hpos.
  split; [lia|]. split; [apply Hempty; lia|].
  intros row' Hr. apply Hfull. lia.
Qed.

Lemma level_full s col : column_level s col 0 -> column_full s col.
Proof. intros (_ & _ & Hfull) row Hr. apply Hfull. lia. Qed.

Lemma make_turn_level s col p n :
  wf s -> 0 <= col < grid_width s -> column_level s col n -> 0 < n ->
  p <> EMPTY_COLOR ->
  exists s', make_turn s col p = Ok (None, s') /\ wf s' /\
             grid_width s' = grid_width s /\ column_level s' col (n - 1).
Proof.
  intros Hwf Hc Hlev Hpos Hp.
  pose proof (level_lowest s col n Hlev Hpos) as Hl.
  destruct (make_turn_place s col p (n - 1) Hwf Hc Hl) as (g & Hg & Hm).
  exists (placed s g (n - 1) col p).
  split; [exact Hm|]. split; [now apply placed_wf|]. split; [reflexivity|].
  destruct Hlev as (Hn & Hempty & Hfull).
  pose proof Hwf as (Hw & Hh & _). unfold INT_MAX, SIZE_MAX in *.
  unfold column_level, placed; cbn [grid grid_height].
  split; [lia|]. split.
  - intros row Hr. rewrite <- (Hempty row) by lia.
    apply (get_set_other (grid s) (n - 1) col p); trivial;
      try (unfold is_size_t, SIZE_MAX; lia).
    intros [= ?]. lia.
  - intros row Hr. destruct (Z.eq_dec row (n - 1)) as [->|Hne].
    + exists p. split; [now apply get_set_same with (g := grid s)|exact Hp].
    + destruct (Hfull row) as (v & Hv & Hv0); [lia|].
      exists v. split; [|exact Hv0]. rewrite <- Hv.
      apply (get_set_other (grid s) (n - 1) col p); trivial;
        try (unfold is_size_t, SIZE_MAX; lia).
      intros [= ?]. lia.
Qed.

Lemma play_level col p (k : nat) : forall s,
  wf s -> 0 <= col < grid_width s -> column_level s col (Z.of_nat k) ->
  p <> EMPTY_COLOR ->
  exists s', play s (replicate k (col, p)) = Ok (None, s') /\ wf s' /\
             grid_width s' = grid_width s /\ column_level s' col 0.
Proof.
  induction k as [|k IH]; intros s Hwf Hc Hlev Hp; cbn [replicate play].
  - exists s. auto.
  - destruct (make_turn_level s col p (Z.of_nat (S k)) Hwf Hc Hlev ltac:(lia) Hp)
      as (s1 & Hm & Hwf1 & Hw1 & Hlev1).
    rewrite Hm. cbn [bind].
    replace (Z.of_nat (S k) - 1) with (Z.of_nat k) in Hlev1 by lia.
    destruct (IH s1 Hwf1 ltac:(rewrite Hw1; exact Hc) Hlev1 Hp)
      as (s' & Hs' & Hwf' & Hw' & Hlev').
    exists s'. split; [exact Hs'|]. split; [exact Hwf'|]. split; [congruence|exact Hlev'].
Qed.

(** X12. Column exhaustion: on a reachable state, a column whose lowest
    empty cell is on row [row] accepts exactly [row + 1] more moves of
    players other than the empty marker; the next move in the column
    returns the column-full error and leaves the state as it is. *)
Theorem column_exhaustion s col row p :
  reachable s -> 0 <= col < grid_width s -> lowest_empty s col row ->
  p <> EMPTY_COLOR ->
  exists s1,
    play s (replicate (Z.to_nat (row + 1)) (col, p)) = Ok (None, s1) /\
    column_full s1 col /\
    make_turn s1 col p = Ok (Some err_full, s1).
Proof.
  intros Hreach Hc Hl Hp.
  pose proof (reachable_wf s Hreach) as Hwf.
  pose proof (reachable_no_floating s Hreach) as Hst.
  pose proof Hl as (Hr & _ & Hbelow).
  assert (column_level s col (Z.of_nat (Z.to_nat (row + 1)))) as Hlev.
  { rewrite Z2Nat.id by lia. split; [lia|]. split.
    - intros row' Hr'. apply (above_lowest_empty s col row); trivial. lia.
    - intros row' Hr'. apply Hbelow. lia. }
  destruct (play_level col p (Z.to_nat (row + 1)) s Hwf Hc Hlev Hp)
    as (s1 & Hs1 & Hwf1 & Hw1 & Hlev1).
  exists s1. split; [exact Hs1|].
  pose proof (level_full s1 col Hlev1) as Hfull.
  split; [exact Hfull|].
  apply make_turn_full; [exact Hwf1|now rewrite Hw1|exact Hfull].
Qed.

Lemma column_exhaustion_witness :
  reachable bottom_three /\ 0 <= 0 < grid_width bottom_three /\
  lowest_empty bottom_three 0 8 /\ 2 <> EMPTY_COLOR /\
  exists s1,
    play bottom_three (replicate (Z.to_nat (8 + 1)) (0, 2)) = Ok (None, s1) /\
    column_full s1 0 /\
    make_turn s1 0 2 = Ok (Some err_full, s1).
Proof.
  pose proof (after_turns_reachable [(0, 1); (1, 1); (2, 1)]) as Hr.
  assert (0 <= 0 < grid_width bottom_three) as Hc by (simpl; lia).
  assert (lowest_empty bottom_three 0 8) as Hl.
  { split; [simpl; lia|]. split; [reflexivity|]. intros row' Hr'.
    cbn [bottom_three grid_height] in Hr'. assert (row' = 9) as -> by lia.
    eexists. split; [reflexivity|discriminate]. }
  assert (2 <> EMPTY_COLOR) as Hp by discriminate.
  split; [exact Hr|]. split; [exact Hc|]. split; [exact Hl|]. split; [exact Hp|].
  exact (column_exhaustion bottom_three 0 8 2 Hr Hc Hl Hp).
Defined.

(** ** The text of [debug_print_state] *)

Lemma print_cells_render s row_i r :
  wf s -> grid_width s <= INT_MAX -> 0 <= row_i < grid_height s ->
  grid s !! Z.to_nat row_i = Some r ->
  forall n col_i, 0 <= col_i -> col_i + Z.of_nat n = grid_width s ->
  print_cells s n row_i col_i = Ok (render_row (drop (Z.to_nat col_i) r)).
Proof.
  intros Hwf Hwi Hrow Hr. pose proof (wf_row s _ r Hwf Hr) as Hlen.
  pose proof Hwf as (Hw & Hh & _). unfold INT_MAX, SIZE_MAX in *.
  induction n as [|n IH]; intros col_i Hc Hn; cbn [print_cells].
  - rewrite drop_ge by lia. reflexivity.
  - destruct (r !! Z.to_nat col_i) as [v|] eqn:Ev;
      [|apply lookup_ge_None in Ev; lia].
    assert (get_cell (grid s) row_i col_i = Ok v) as ->.
    { unfold get_cell.
      rewrite !to_size_t_id by (unfold is_size_t, SIZE_MAX; lia).
      now rewrite Hr, Ev. }
    cbn [bind]. rewrite int_add_ok by (unfold is_int, INT_MIN, INT_MAX; lia).
    cbn [bind]. rewrite IH by lia. cbn [bind].
    rewrite (drop_S r v (Z.to_nat col_i) Ev). cbn [render_row].
    replace (Z.to_nat (col_i + 1)) with (S (Z.to_nat col_i)) by lia. reflexivity.
Qed.

Lemma print_rows_render s :
  wf s -> grid_width s <= INT_MAX ->
  forall n row_i, 0 <= row_i -> row_i + Z.of_nat n = grid_height s ->
  print_rows s n row_i = Ok (render_grid (drop (Z.to_nat row_i) (grid s))).
Proof.
  intros Hwf Hwi. pose proof Hwf as (Hw & Hh & Hlen & _).
  unfold INT_MAX, SIZE_MAX in *.
  induction n as [|n IH]; intros row_i Hr Hn; cbn [print_rows].
  - rewrite drop_ge by lia. reflexivity.
  - destruct (grid s !! Z.to_nat row_i) as [r|] eqn:Er;
      [|apply lookup_ge_None in Er; lia].
    rewrite (print_cells_render s row_i r Hwf) by (unfold INT_MAX; lia || assumption).
    cbn [bind]. rewrite int_add_ok by (unfold is_int, INT_MIN, INT_MAX; lia).
    cbn [bind]. rewrite IH by lia. cbn [bind].
    rewrite (drop_S (grid s) r (Z.to_nat row_i) Er). cbn [render_grid].
    change (Z.to_nat 0) with 0%nat. rewrite drop_0.
    replace (Z.to_nat (row_i + 1)) with (S (Z.to_nat row_i)) by lia. reflexivity.
Qed.

(** The board drawn by [debug_print_state]. *)
Lemma print_board s :
  wf s -> grid_width s <= INT_MAX ->
  print_rows s (Z.to_nat (grid_height s)) 0 = Ok (render_grid (grid s)).
Proof.
  intros Hwf Hwi. pose proof Hwf as (_ & Hh & _).
  rewrite (print_rows_render s Hwf Hwi) by lia.
  change (Z.to_nat 0) with 0%nat. now rewrite drop_0.
Qed.

Lemma render_line_inj r : forall r' X X',
  Forall drawn r -> Forall drawn r' ->
  render_row r +:+ endl +:+ X = render_row r' +:+ endl +:+ X' ->
  r = r' /\ X = X'.
Proof.
  induction r as [|v r IH]; intros [|v' r'] X X' Hd Hd' H.
  - cbn in H. injection H as H. auto.
  - exfalso. apply Forall_cons in Hd' as [[->|[->| ->]] _]; cbn in H; discriminate.
  - exfalso. apply Forall_cons in Hd as [[->|[->| ->]] _]; cbn in H; discriminate.
  - apply Forall_cons in Hd as [Hv Hd]. apply Forall_cons in Hd' as [Hv' Hd'].
    assert (v = v' /\ render_row r +:+ endl +:+ X = render_row r' +:+ endl +:+ X')
      as [-> Hrest].
    { destruct Hv as [->|[->| ->]]; destruct Hv' as [->|[->| ->]];
        cbn in H; try discriminate; injection H as H; auto. }
    destruct (IH r' X X' Hd Hd' Hrest) as [-> ->]. auto.
Qed.

Lemma render_grid_inj g : forall g',
  Forall (Forall drawn) g -> Forall (Forall drawn) g' ->
  render_grid g = render_grid g' -> g = g'.
Proof.
  induction g as [|r g IH]; intros [|r' g'] Hd Hd' H.
  - reflexivity.
  - exfalso. apply Forall_cons in Hd' as [Hr' _]. cbn [render_grid] in H.
    destruct r' as [|v' r'].
    + cbn in H. discriminate.
    + apply Forall_cons in Hr' as [[->|[->| ->]] _]; cbn in H; discriminate.
  - exfalso. apply Forall_cons in Hd as [Hr _]. cbn [render_grid] in H.
    destruct r as [|v r].
    + cbn in H. discriminate.
    + apply Forall_cons in Hr as [[->|[->| ->]] _]; cbn in H; discriminate.
  - apply Forall_cons in Hd as [Hr Hd]. apply Forall_cons in Hd' as [Hr' Hd'].
    cbn [render_grid] in H.
    destruct (render_line_inj r r' _ _ Hr Hr' H) as [-> Hrest].
    now rewrite (IH g' Hd Hd' Hrest).
Qed.

(** X13. The board drawn by [debug_print_state] determines the grid:
    two well-formed states, at most [INT_MAX] columns wide, whose cells
    hold only the colours 0, 1 and 2 and whose boards are drawn alike
    have the same grid. *)
Theorem board_determines_grid s s' text :
  wf s -> wf s' -> grid_width s <= INT_MAX -> grid_width s' <= INT_MAX ->
  Forall (Forall drawn) (grid s) -> Forall (Forall drawn) (grid s') ->
  print_rows s (Z.to_nat (grid_height s)) 0 = Ok text ->
  print_rows s' (Z.to_nat (grid_height s')) 0 = Ok text ->
  grid s = grid s'.
Proof.
  intros Hwf Hwf' Hwi Hwi' Hd Hd' Ht Ht'.
  rewrite print_board in Ht, Ht' by assumption.
  apply render_grid_inj; congruence.
Qed.

Lemma demo_state_drawn : Forall (Forall drawn) (grid demo_state).
Proof. unfold demo_state, drawn; cbn [grid]. repeat constructor; lia. Qed.

Lemma board_determines_grid_witness :
  wf demo_state /\ grid_width demo_state <= INT_MAX /\
  Forall (Forall drawn) (grid demo_state) /\
  print_rows demo_state (Z.to_nat (grid_height demo_state)) 0
  = Ok (render_grid [[1; 0; 0]; [2; 0; 0]]) /\
  grid demo_state = grid demo_state.
Proof.
  assert (grid_width demo_state <= INT_MAX) as Hwi by (unfold INT_MAX; simpl; lia).
  assert (print_rows demo_state (Z.to_nat (grid_height demo_state)) 0
          = Ok (render_grid [[1; 0; 0]; [2; 0; 0]])) as Ht by reflexivity.
  split; [exact demo_state_wf|]. split; [exact Hwi|].
  split; [exact demo_state_drawn|]. split; [exact Ht|].
  exact (board_determines_grid demo_state demo_state _ demo_state_wf demo_state_wf
           Hwi Hwi demo_state_drawn demo_state_drawn Ht Ht).
Defined.

Lemma render_row_glyphs (r : list ColorType) : forall r' : list ColorType,
  glyph <$> r = glyph <$> r' -> render_row r = render_row r'.
Proof.
  induction r as [|v r IH]; intros [|v' r'] H; try discriminate; [reflexivity|].
  rewrite !fmap_cons in H. injection H as Hv Hr.
  cbn [render_row]. now rewrite Hv, (IH r' Hr).
Qed.

Lemma render_grid_glyphs (g : list (list ColorType)) :
  forall g' : list (list ColorType),
  fmap (M := list) glyph <$> g = fmap (M := list) glyph <$> g' ->
  render_grid g = render_grid g'.
Proof.
  induction g as [|r g IH]; intros [|r' g'] H; try discriminate; [reflexivity|].
  rewrite !fmap_cons in H. injection H as Hr Hg.
  cbn [render_grid]. now rewrite (render_row_glyphs r r' Hr), (IH g' Hg).
Qed.

Lemma set_cell_glyphs g row col v v' g1 g2 :
  glyph v = glyph v' ->
  set_cell g row col v = Ok g1 -> set_cell g row col v' = Ok g2 ->
  fmap (M := list) glyph <$> g1 = fmap (M := list) glyph <$> g2.
Proof.
  unfold set_cell. intros Hv H1 H2.
  destruct (g !! _) as [r|]; [|discriminate].
  destruct (r !! _); [|discriminate].
  injection H1 as <-. injection H2 as <-.
  rewrite !list_fmap_insert. now rewrite Hv.
Qed.

(** X14. Only the players 1 and 2 have a glyph: after the same move made
    by two players that are both neither 0, 1 nor 2,
    [debug_print_state] draws the same board. *)
Theorem other_players_drawn_alike s col p p' s1 s2 :
  wf s -> grid_width s <= INT_MAX -> ~ drawn p -> ~ drawn p' ->
  make_turn s col p = Ok (None, s1) -> make_turn s col p' = Ok (None, s2) ->
  print_rows s1 (Z.to_nat (grid_height s1)) 0
  = print_rows s2 (Z.to_nat (grid_height s2)) 0.
Proof.
  intros Hwf Hwi Hp Hp' H1 H2.
  assert (forall q, ~ drawn q -> glyph q = "") as Hglyph.
  { intros q Hq. unfold glyph, EMPTY_COLOR, drawn in *.
    destruct (Z.eqb_spec q 0); [lia|].
    destruct (Z.eqb_spec q 1); [lia|].
    destruct (Z.eqb_spec q 2); [lia|reflexivity]. }
  pose proof (make_turn_wf s col p None s1 Hwf H1) as Hwf1.
  pose proof (make_turn_wf s col p' None s2 Hwf H2) as Hwf2.
  destruct (make_turn_dims s col p None s1 Hwf H1) as [Hw1 Hh1].
  destruct (make_turn_dims s col p' None s2 Hwf H2) as [Hw2 Hh2].
  rewrite !print_board by (assumption || lia).
  destruct (make_turn_cases s col p Hwf)
    as [[_ H]|[(_ & _ & H)|(_ & row & g & Hl & Hg & H)]];
    rewrite H in H1; [discriminate..|].
  destruct (make_turn_cases s col p' Hwf)
    as [[_ H']|[(_ & _ & H')|(_ & row' & g' & Hl' & Hg' & H')]];
    rewrite H' in H2; [discriminate..|].
  injection H1 as <-. injection H2 as <-. cbn [placed grid].
  rewrite (lowest_empty_unique s col row' row Hl' Hl) in Hg'.
  f_equal. apply render_grid_glyphs.
  apply (set_cell_glyphs (grid s) row col p p'); [|assumption..].
  now rewrite !Hglyph.
Qed.

Lemma other_players_drawn_alike_witness :
  wf (after_turns []) /\ grid_width (after_turns []) <= INT_MAX /\
  ~ drawn 3 /\ ~ drawn 4 /\
  make_turn (after_turns []) 2 3 = Ok (None, third_player) /\
  make_turn (after_turns []) 2 4 = Ok (None, fourth_player) /\
  print_rows third_player (Z.to_nat (grid_height third_player)) 0
  = print_rows fourth_player (Z.to_nat (grid_height fourth_player)) 0.
Proof.
  assert (grid_width (after_turns []) <= INT_MAX) as Hwi by (unfold INT_MAX; simpl; lia).
  assert (~ drawn 3) as H3 by (unfold drawn; lia).
  assert (~ drawn 4) as H4 by (unfold drawn; lia).
  assert (make_turn (after_turns []) 2 3 = Ok (None, third_player)) as Hm3 by reflexivity.
  assert (make_turn (after_turns []) 2 4 = Ok (None, fourth_player)) as Hm4 by reflexivity.
  split; [exact (after_turns_wf [])|]. split; [exact Hwi|].
  split; [exact H3|]. split; [exact H4|]. split; [exact Hm3|]. split; [exact Hm4|].
  exact (other_players_drawn_alike (after_turns []) 2 3 4 third_player fourth_player
           (after_turns_wf []) Hwi H3 H4 Hm3 Hm4).
Defined.

Lemma is_terminal_returns s :
  reachable s -> int_columns s -> exists r, is_terminal s = Ok r.
Proof.
  intros Hreach Hwi.
  destruct (last (history s)) as [[[row col] p]|] eqn:Hlast.
  - apply (is_terminal_safe s row col p); [now apply reachable_wf|assumption..|].
    apply (reachable_history_on_grid s Hreach (int_columns_width s Hwi) row col p).
    now apply last_Some_elem_of.
  - unfold is_terminal. rewrite Hlast. eauto.
Qed.

Lemma debug_print_state_report s :
  reachable s -> int_columns s ->
  exists verdict,
    is_terminal s = Ok verdict /\ debug_print_state s = Ok (report s verdict).
Proof.
  intros Hreach Hwi.
  destruct (is_terminal_returns s Hreach Hwi) as [verdict Hv].
  exists verdict. split; [exact Hv|].
  unfold debug_print_state. rewrite Hv. cbn [bind].
  rewrite (print_board s (reachable_wf s Hreach) (int_columns_width s Hwi)).
  reflexivity.
Qed.

(** X15. On every reachable state of [int] columns [debug_print_state]
    returns: it reads no cell outside the grid and its counters do not
    overflow.  The text is the dimensions, the number of history
    entries, the verdict of [is_terminal], and after an empty line one
    line for each row of the grid, a glyph and a space for each cell. *)
Theorem debug_print_state_text s :
  reachable s -> int_columns s ->
  exists verdict,
    is_terminal s = Ok verdict /\ debug_print_state s = Ok (report s verdict).
Proof.
  intros Hreach Hwi.
  pose proof (reachable_wf s Hreach) as Hwf.
  destruct (is_terminal_returns s Hreach Hwi) as [verdict Hv].
  exists verdict. split; [exact Hv|].
  unfold debug_print_state. rewrite Hv. cbn [bind].
  rewrite (print_board s Hwf (int_columns_width s Hwi)). cbn [bind].
  reflexivity.
Qed.

Lemma debug_print_state_text_witness :
  reachable diagonal_state /\ int_columns diagonal_state /\
  exists verdict,
    is_terminal diagonal_state = Ok verdict /\
    debug_print_state diagonal_state = Ok (report diagonal_state verdict).
Proof.
  pose proof (after_turns_reachable diagonal_game) as Hr.
  split; [exact Hr|]. split; [exact diagonal_state_int_columns|].
  exact (debug_print_state_text diagonal_state Hr diagonal_state_int_columns).
Defined.

(** ** The loop of [main] *)

Lemma append_assoc (a b c : string) : (a +:+ b) +:+ c = a +:+ b +:+ c.
Proof.
  induction a as [|x a IH]; [reflexivity|].
  change (String x ((a +:+ b) +:+ c) = String x (a +:+ b +:+ c)).
  now rewrite IH.
Qed.

Lemma history_inv_turns s :
  history_inv s -> grid_width s = 10 -> grid_height s = 10 ->
  (length (history s) <= 100)%nat.
Proof. intros [_ H] Hw Hh. rewrite Hw, Hh in H. lia. Qed.

Lemma main_players turn_counter :
  0 <= turn_counter ->
  exists player_id,
    players !! Z.to_nat (to_size_t (Z.rem turn_counter 2)) = Some player_id /\
    (player_id = 1 \/ player_id = 2).
Proof.
  intros Ht.
  assert (Z.rem turn_counter 2 = 0 \/ Z.rem turn_counter 2 = 1) as [-> | ->]
    by (pose proof (Z.rem_bound_pos turn_counter 2); lia).
  - exists 1. split; [reflexivity|auto].
  - exists 2. split; [reflexivity|auto].
Qed.

Lemma main_loop_spec cin : forall state turn_counter out,
  reachable state -> history_inv state ->
  grid_width state = 10 -> grid_height state = 10 ->
  turn_counter = Z.of_nat (length (history state)) ->
  match main_loop state turn_counter cin out with
  | Ok e =>
      exit_code e = 0 /\
      (length cin + length (history state) <= length (unread e) + 101)%nat /\
      (exists read, cin = read ++ unread e) /\
      last_line (output e)
  | UB => (length cin + length (history state) <= 100)%nat
  | Throw => False
  end.
Proof.
  induction cin as [|token_col cin IH]; intros state turn_counter out
    Hreach Hinv Hw Hh Htc; cbn [main_loop].
  - pose proof (history_inv_turns state Hinv Hw Hh). cbn [length]. lia.
  - pose proof (history_inv_turns state Hinv Hw Hh) as Hturns.
    destruct (main_players turn_counter ltac:(lia)) as (player_id & -> & Hp).
    rewrite int_add_ok by (unfold is_int, INT_MIN, INT_MAX; lia). cbn [bind].
    assert (to_size_t player_id = player_id /\ player_id <> EMPTY_COLOR) as [-> Hne].
    { destruct Hp as [-> | ->]; split; (reflexivity || discriminate). }
    destruct (reachable_make_turn state (to_size_t token_col) player_id Hreach)
      as (r & state' & Hm).
    rewrite Hm. cbn [bind].
    pose proof (reachable_wf state Hreach) as Hwf.
    destruct r as [err|].
    + cbn [exit_code unread output length].
      split; [reflexivity|]. split; [lia|]. split; [now exists [token_col]|].
      destruct (make_turn_cases state (to_size_t token_col) player_id Hwf)
        as [[_ H]|[(_ & _ & H)|(_ & row & g & _ & _ & H)]];
        rewrite H in Hm; [| |discriminate]; injection Hm as <- _.
      * right. left. now exists out.
      * right. right. now exists out.
    + destruct (history_inv_make_turn state _ player_id None state' Hne Hinv Hm)
        as (Hinv' & Hw' & Hh').
      rewrite Hw in Hw'. rewrite Hh in Hh'.
      pose proof (reachable_turn state _ player_id None state' Hreach Hm) as Hreach'.
      assert (grid_width state <= INT_MAX) as Hwi by (unfold INT_MAX; lia).
      destruct (make_turn_last state _ player_id state' Hwf Hwi Hm)
        as (row & _ & _ & _ & _ & _ & Hhist & _).
      assert (length (history state') = S (length (history state))) as Hlen.
      { rewrite Hhist, length_app. cbn [length]. lia. }
      pose proof (history_inv_turns state' Hinv' Hw' Hh') as Hturns'.
      assert (int_columns state') as Hic.
      { unfold int_columns, INT_MAX, line_offset, line_len. lia. }
      destruct (debug_print_state_report state' Hreach' Hic) as (verdict & Hv & ->).
      cbn [bind]. rewrite Hv. cbn [bind].
      destruct verdict as [winner|].
      * cbn [exit_code unread output length].
        split; [reflexivity|]. split; [lia|]. split; [now exists [token_col]|].
        left. exists (out +:+ report state' (Some winner)).
        symmetry. apply append_assoc.
      * specialize (IH state' (turn_counter + 1) (out +:+ report state' None)
                      Hreach' Hinv' Hw' Hh' ltac:(lia)).
        destruct (main_loop state' (turn_counter + 1) cin _) as [e| |].
        -- destruct IH as (He & Hn & [read Hread] & Hlast).
           split; [exact He|]. cbn [length]. split; [lia|].
           split; [|exact Hlast].
           exists (token_col :: read). now rewrite Hread at 1.
        -- cbn [length]. lia.
        -- exact IH.
Qed.

Lemma main_start :
  init_state 10 10
  = Ok (Some {| grid := empty_grid 10 10; grid_width := 10;
                grid_height := 10; history := [] |}).
Proof. apply init_state_ok; unfold INT_MAX, max_size; lia. Qed.

Lemma main_spec cin :
  match main cin with
  | Ok e =>
      exit_code e = 0 /\
      (exists read, cin = read ++ unread e /\ (length read <= 101)%nat) /\
      last_line (output e)
  | UB => (length cin <= 100)%nat
  | Throw => False
  end.
Proof.
  unfold main. rewrite main_start. cbn [bind].
  set (s0 := {| grid := empty_grid 10 10; grid_width := 10;
                grid_height := 10; history := [] |}).
  assert (reachable s0) as Hreach.
  { apply (reachable_init 10 10); [unfold is_size_t, SIZE_MAX; lia..|].
    exact main_start. }
  assert (history_inv s0) as Hinv.
  { apply (history_inv_init 10 10 s0); [unfold is_size_t, SIZE_MAX; lia..|].
    exact main_start. }
  pose proof (main_loop_spec cin s0 0 "" Hreach Hinv eq_refl eq_refl eq_refl) as H.
  destruct (main_loop s0 0 cin "") as [e| |]; cbn [history length] in H.
  - destruct H as (He & Hn & [read Hread] & Hlast).
    split; [exact He|]. split; [|exact Hlast].
    exists read. split; [exact Hread|].
    apply (f_equal length) in Hread. rewrite length_app in Hread. lia.
  - lia.
  - exact H.
Qed.

(** X16. Whenever [main] returns, the exit code is 0; it has read at
    most 101 values from the input, and the last line of its output is
    [gg] or the error message of a rejected move. *)
Theorem main_exit cin e :
  main cin = Ok e ->
  exit_code e = 0 /\
  (exists read, cin = read ++ unread e /\ (length read <= 101)%nat) /\
  last_line (output e).
Proof.
  intros Hm. pose proof (main_spec cin) as H. now rewrite Hm in H.
Qed.

Lemma main_exit_witness :
  main short_input = Ok short_exit /\
  exit_code short_exit = 0 /\
  (exists read, short_input = read ++ unread short_exit /\ (length read <= 101)%nat) /\
  last_line (output short_exit).
Proof.
  assert (main short_input = Ok short_exit) as Hm by (vm_compute; reflexivity).
  split; [exact Hm|].
  exact (main_exit short_input short_exit Hm).
Defined.

(** X17. With 101 values on the input [main] always returns, and with
    exit code 0: the game on the 10 x 10 grid is over after at most 100
    accepted moves and one rejected one. *)
Theorem main_returns cin :
  (101 <= length cin)%nat -> exists e, main cin = Ok e /\ exit_code e = 0.
Proof.
  intros Hlen. pose proof (main_spec cin) as H.
  destruct (main cin) as [e| |]; [|lia|contradiction].
  exists e. split; [reflexivity|apply H].
Qed.

Lemma main_returns_witness :
  (101 <= length (replicate 101 0))%nat /\
  exists e, main (replicate 101 0) = Ok e /\ exit_code e = 0.
Proof.
  assert (101 <= length (replicate 101 0))%nat as Hlen
    by (rewrite length_replicate; lia).
  split; [exact Hlen|].
  exact (main_returns (replicate 101 0) Hlen).
Defined.

(** X18. A first input that is not a column of the 10 x 10 grid, a
    negative number included (it is converted to a [size_t] above the
    width), ends [main] at once: the output is the range error, the exit
    code is 0 and the rest of the input is left unread. *)
Theorem main_rejects_column token_col cin :
  is_int token_col -> ~ 0 <= token_col < 10 ->
  main (token_col :: cin)
  = Ok {| exit_code := 0;
          output := "error: " +:+ err_range +:+ endl;
          unread := cin |}.
Proof.
  intros Hint Hout. unfold main. rewrite main_start. cbn [bind].
  set (s0 := {| grid := empty_grid 10 10; grid_width := 10;
                grid_height := 10; history := [] |}).
  assert (wf s0) as Hwf.
  { apply reachable_wf. apply (reachable_init 10 10);
      [unfold is_size_t, SIZE_MAX; lia..|exact main_start]. }
  cbn [main_loop]. change (players !! Z.to_nat (to_size_t (Z.rem 0 2))) with (Some 1).
  change (int_add 0 1) with (Ok (A := Z) 1). cbn [bind].
  change (to_size_t 1) with 1.
  assert (~ 0 <= to_size_t token_col < grid_width s0) as Hc.
  { unfold is_int, INT_MIN, INT_MAX in Hint. unfold to_size_t. cbn [s0 grid_width].
    Z.div_mod_to_equations. lia. }
  destruct (make_turn_cases s0 (to_size_t token_col) 1 Hwf)
    as [[_ H]|[(Hin & _)|(Hin & _)]]; [|contradiction..].
  rewrite H. reflexivity.
Qed.

Lemma main_rejects_column_witness :
  is_int (-1) /\ ~ 0 <= -1 < 10 /\
  main [-1; 4; 4]
  = Ok {| exit_code := 0;
          output := "error: " +:+ err_range +:+ endl;
          unread := [4; 4] |}.
Proof.
  assert (is_int (-1)) as Hint by (unfold is_int, INT_MIN, INT_MAX; lia).
  assert (~ 0 <= -1 < 10) as Hout by lia.
  split; [exact Hint|]. split; [exact Hout|].
  exact (main_rejects_column (-1) [4; 4] Hint Hout).
Defined.
